(** * Xmax_Tree: the gesture classifier and the particle transform engine

    A shallow embedding of [src/components/ChristmasExperience.tsx] and
    [src/types.ts]: the refs of the React component become one explicit
    [State] record, the event handlers [handleGestures] and
    [addPhotoParticle] become computations in a small state-and-exception
    monad, and the render callback [animate] becomes a total function on
    states.

    Numbers.  A JavaScript [number] is idealised as a real number: rounding,
    NaN and the infinities of IEEE doubles are not modelled.  Every concrete
    input used below is a small dyadic or decimal value on which the
    idealisation and double arithmetic agree about each comparison made.

    Randomness.  Each call of [Math.random()] is an explicit argument holding
    the value drawn; the source promises a value in the interval [0, 1). *)

From Stdlib Require Import Reals Lra Lia ZArith String Bool Arith List.
From Stdlib Require Import RNsatz.
Import ListNotations.
Open Scope R_scope.

(** ** Data model ([src/types.ts]) *)

Inductive TreeMode := TREE | SCATTER | FOCUS.

Inductive ParticleType :=
  ORNAMENT_GOLD | ORNAMENT_RED | BOX_GREEN | CANE | PHOTO | DUST.

Definition TreeMode_eqb (a b : TreeMode) : bool :=
  match a, b with
  | TREE, TREE | SCATTER, SCATTER | FOCUS, FOCUS => true
  | _, _ => false
  end.

Definition ParticleType_eqb (a b : ParticleType) : bool :=
  match a, b with
  | ORNAMENT_GOLD, ORNAMENT_GOLD | ORNAMENT_RED, ORNAMENT_RED
  | BOX_GREEN, BOX_GREEN | CANE, CANE | PHOTO, PHOTO | DUST, DUST => true
  | _, _ => false
  end.

(** [{ x: number, y: number, z: number }], also used for [THREE.Vector3]
    and for the angles of a [THREE.Euler]. *)
Record Vec3 := mkVec3 { vx : R; vy : R; vz : R }.

(** [{ x: number, y: number }], the type of [mouseRotationRef]. *)
Record Vec2 := mkVec2 { px : R; py : R }.

Record Quaternion := mkQuat { qx : R; qy : R; qz : R; qw : R }.

(** The part of a [THREE.Object3D] the component reads and writes.  [id] is
    the object's identity: [===] on two objects is equality of their ids,
    and every [new THREE.Group()] takes a fresh one. *)
Record Object3D := mkObject3D {
  id : nat;
  position : Vec3;
  rotation : Vec3;
  scale : Vec3
}.

Record ParticleData := mkParticle {
  mesh : Object3D;
  type : ParticleType;
  posTree : Vec3;
  posScatter : Vec3;
  baseScale : R;
  rotationSpeed : Vec3;
  phase : R
}.

(** A landmark of MediaPipe's hand model, and the result of one detection:
    [landmarks] may be missing, and holds one list of landmarks per hand. *)
Record NormalizedLandmark := mkLandmark { lx : R; ly : R; lz : R }.

Record HandLandmarkerResult := mkResult {
  landmarks : option (list (list NormalizedLandmark))
}.

(** The group every particle is a child of: its rotation and its children. *)
Record Group := mkGroup {
  groupRotation : Vec3;
  children : list nat
}.

(** ** The component's state: its refs and the state it reports to [App] *)

Record State := mkState {
  particlesRef : list ParticleData;
  modeRef : TreeMode;
  focusTargetRef : option nat;
  mouseRotationRef : Vec2;
  cameraRef : option Vec3;
  rendererRef : bool;
  composerRef : bool;
  mainGroupRef : option Group;
  currentMode : TreeMode;
  gestureHint : string;
  nextObjectId : nat
}.

Definition with_particles (ps : list ParticleData) (s : State) : State :=
  mkState ps (modeRef s) (focusTargetRef s) (mouseRotationRef s)
    (cameraRef s) (rendererRef s) (composerRef s) (mainGroupRef s)
    (currentMode s) (gestureHint s) (nextObjectId s).

Definition with_mode (m : TreeMode) (s : State) : State :=
  mkState (particlesRef s) m (focusTargetRef s) (mouseRotationRef s)
    (cameraRef s) (rendererRef s) (composerRef s) (mainGroupRef s)
    (currentMode s) (gestureHint s) (nextObjectId s).

Definition with_focusTarget (t : option nat) (s : State) : State :=
  mkState (particlesRef s) (modeRef s) t (mouseRotationRef s)
    (cameraRef s) (rendererRef s) (composerRef s) (mainGroupRef s)
    (currentMode s) (gestureHint s) (nextObjectId s).

Definition with_mouseRotation (v : Vec2) (s : State) : State :=
  mkState (particlesRef s) (modeRef s) (focusTargetRef s) v
    (cameraRef s) (rendererRef s) (composerRef s) (mainGroupRef s)
    (currentMode s) (gestureHint s) (nextObjectId s).

Definition with_mainGroup (g : option Group) (s : State) : State :=
  mkState (particlesRef s) (modeRef s) (focusTargetRef s) (mouseRotationRef s)
    (cameraRef s) (rendererRef s) (composerRef s) g
    (currentMode s) (gestureHint s) (nextObjectId s).

Definition with_currentMode (m : TreeMode) (s : State) : State :=
  mkState (particlesRef s) (modeRef s) (focusTargetRef s) (mouseRotationRef s)
    (cameraRef s) (rendererRef s) (composerRef s) (mainGroupRef s)
    m (gestureHint s) (nextObjectId s).

Definition with_gestureHint (h : string) (s : State) : State :=
  mkState (particlesRef s) (modeRef s) (focusTargetRef s) (mouseRotationRef s)
    (cameraRef s) (rendererRef s) (composerRef s) (mainGroupRef s)
    (currentMode s) h (nextObjectId s).

Definition with_nextObjectId (n : nat) (s : State) : State :=
  mkState (particlesRef s) (modeRef s) (focusTargetRef s) (mouseRotationRef s)
    (cameraRef s) (rendererRef s) (composerRef s) (mainGroupRef s)
    (currentMode s) (gestureHint s) n.

(** ** Handlers: state passing with JavaScript exceptions

    A handler ends normally or throws; in both cases the writes it made to
    the refs before that point stay. *)

Inductive JsError := TypeError.

Inductive Completion (A : Type) :=
| Normal (a : A)
| Throw (e : JsError).
Arguments Normal {A} a.
Arguments Throw {A} e.

Definition M (A : Type) : Type := State -> Completion A * State.

Definition ret {A} (a : A) : M A := fun s => (Normal a, s).

Definition bind {A B} (m : M A) (k : A -> M B) : M B :=
  fun s =>
    match m s with
    | (Normal a, s') => k a s'
    | (Throw e, s') => (Throw e, s')
    end.

Definition throw {A} (e : JsError) : M A := fun s => (Throw e, s).

Definition gets {A} (f : State -> A) : M A := fun s => (Normal (f s), s).

Definition modify (f : State -> State) : M unit := fun s => (Normal tt, f s).

(** Reading a property of a value that may be [undefined]. *)
Definition deref {A} (o : option A) : M A :=
  match o with
  | Some a => ret a
  | None => throw TypeError
  end.

Declare Scope js_scope.
Delimit Scope js_scope with js.
Notation "x <- m ;; k" := (bind m (fun x => k))
  (at level 61, m at next level, right associativity) : js_scope.
Notation "m ;;; k" := (bind m (fun _ => k))
  (at level 61, right associativity) : js_scope.

(** The callbacks received from [App] as props. *)
Definition setMode (m : TreeMode) : M unit := modify (with_currentMode m).
Definition setGestureHint (h : string) : M unit := modify (with_gestureHint h).

(** ** Numbers and arrays *)

Definition Rltb (a b : R) : bool := if Rlt_dec a b then true else false.
Definition Rgtb (a b : R) : bool := Rltb b a.

(** [Math.hypot(a, b)]. *)
Definition hypot (a b : R) : R := sqrt (a * a + b * b).

(** [arr[k]] for a number [k] that is an integer: [undefined] out of range. *)
Definition jsIndex {A} (arr : list A) (k : Z) : option A :=
  if (k <? 0)%Z then None else nth_error arr (Z.to_nat k).

(** ** The gesture classifier: [handleGestures] *)

Definition PINCH_THRESHOLD : R := 0.05.
Definition FIST_THRESHOLD : R := 0.25.
Definition OPEN_THRESHOLD : R := 0.35.

Section Features.
Variable lm : list NormalizedLandmark.

Definition wrist := nth_error lm 0.
Definition thumbTip := nth_error lm 4.
Definition indexTip := nth_error lm 8.
Definition middleTip := nth_error lm 12.
Definition ringTip := nth_error lm 16.
Definition pinkyTip := nth_error lm 20.
Definition middleKnuckle := nth_error lm 9.

(** [Math.hypot(thumbTip.x - indexTip.x, thumbTip.y - indexTip.y)];
    [None] when a landmark read is [undefined]. *)
Definition pinchDist : option R :=
  match thumbTip, indexTip with
  | Some t, Some i => Some (hypot (lx t - lx i) (ly t - ly i))
  | _, _ => None
  end.

(** One round of [tips.forEach]: [acc += Math.hypot(t.x - wrist.x, ...)]. *)
Definition addDistToWrist (acc : option R) (t : option NormalizedLandmark)
  : option R :=
  match acc, t, wrist with
  | Some a, Some t, Some w => Some (a + hypot (lx t - lx w) (ly t - ly w))
  | _, _, _ => None
  end.

Definition avgDistToWrist : option R :=
  match fold_left addDistToWrist
          [indexTip; middleTip; ringTip; pinkyTip] (Some 0) with
  | Some total => Some (total / 4)
  | None => None
  end.

(** [{ x: handX, y: handY }]. *)
Definition handXY : option Vec2 :=
  match middleKnuckle with
  | Some k => Some (mkVec2 ((lx k - 0.5) * -2) ((ly k - 0.5) * -2))
  | None => None
  end.
End Features.

Open Scope js_scope.

(** Entering FOCUS: a random photo, or the first particle. [u] is the value
    of the one [Math.random()] call. *)
Definition pickFocusTarget (u : R) : M unit :=
  ps <- gets particlesRef ;;
  let photos :=
    filter (fun p => ParticleType_eqb (type p) PHOTO) ps in
  if (0 <? length photos)%nat then
    p <- deref (jsIndex photos (Zfloor (u * INR (length photos)))) ;;
    modify (with_focusTarget (Some (id (mesh p))))
  else
    p <- deref (jsIndex ps 0) ;;
    modify (with_focusTarget (Some (id (mesh p)))).

(** The mode-switching part of [handleGestures], on the two features. *)
Definition switchMode (u pinchDist avgDistToWrist : R) : M unit :=
  mode <- gets modeRef ;;
  if Rltb pinchDist PINCH_THRESHOLD then
    if negb (TreeMode_eqb mode FOCUS) then
      modify (with_mode FOCUS) ;;;
      setMode FOCUS ;;;
      setGestureHint "Inspecting Memory" ;;;
      pickFocusTarget u
    else ret tt
  else if Rltb avgDistToWrist FIST_THRESHOLD then
    if negb (TreeMode_eqb mode TREE) then
      modify (with_mode TREE) ;;;
      setMode TREE ;;;
      setGestureHint "Restoring Tree" ;;;
      modify (with_focusTarget None)
    else ret tt
  else if Rgtb avgDistToWrist OPEN_THRESHOLD then
    if negb (TreeMode_eqb mode SCATTER) then
      modify (with_mode SCATTER) ;;;
      setMode SCATTER ;;;
      setGestureHint "Magic Scatter" ;;;
      modify (with_focusTarget None)
    else ret tt
  else ret tt.

Definition handleGestures (u : R) (result : HandLandmarkerResult) : M unit :=
  match landmarks result with
  | None | Some [] => setGestureHint "No Hand Detected"
  | Some (lm :: _) =>
    pinch <- deref (pinchDist lm) ;;
    openness <- deref (avgDistToWrist lm) ;;
    hand <- deref (handXY lm) ;;
    modify (with_mouseRotation hand) ;;;
    switchMode u pinch openness
  end.

Close Scope js_scope.

(** ** three.js arithmetic used by the render callback *)

(** [Vector3.lerp(v, alpha)]: [this.x += (v.x - this.x) * alpha], and the
    same for [y] and [z]. *)
Definition Vector3_lerp (this v : Vec3) (alpha : R) : Vec3 :=
  mkVec3 (vx this + (vx v - vx this) * alpha)
         (vy this + (vy v - vy this) * alpha)
         (vz this + (vz v - vz this) * alpha).

(** [MathUtils.lerp(x, y, t)]: [(1 - t) * x + t * y]. *)
Definition MathUtils_lerp (x y t : R) : R := (1 - t) * x + t * y.

(** The quaternion three.js keeps for an Euler rotation of order XYZ. *)
Definition setFromEuler (e : Vec3) : Quaternion :=
  let c1 := cos (vx e / 2) in
  let c2 := cos (vy e / 2) in
  let c3 := cos (vz e / 2) in
  let s1 := sin (vx e / 2) in
  let s2 := sin (vy e / 2) in
  let s3 := sin (vz e / 2) in
  mkQuat (s1 * c2 * c3 + c1 * s2 * s3)
         (c1 * s2 * c3 - s1 * c2 * s3)
         (c1 * c2 * s3 + s1 * s2 * c3)
         (c1 * c2 * c3 - s1 * s2 * s3).

(** [Quaternion.invert()]: the conjugate. *)
Definition invert (q : Quaternion) : Quaternion :=
  mkQuat (qx q * -1) (qy q * -1) (qz q * -1) (qw q).

(** [Vector3.applyQuaternion(q)]. *)
Definition applyQuaternion (v : Vec3) (q : Quaternion) : Vec3 :=
  let tx := 2 * (qy q * vz v - qz q * vy v) in
  let ty := 2 * (qz q * vx v - qx q * vz v) in
  let tz := 2 * (qx q * vy v - qy q * vx v) in
  mkVec3 (vx v + qw q * tx + qy q * tz - qz q * ty)
         (vy v + qw q * ty + qz q * tx - qx q * tz)
         (vz v + qw q * tz + qx q * ty - qy q * tx).

(** ** The particle transform engine: [animate] *)

(** [p.mesh === focusTargetRef.current]. *)
Definition isFocusTarget (focus : option nat) (p : ParticleData) : bool :=
  match focus with
  | Some t => Nat.eqb (id (mesh p)) t
  | None => false
  end.

(** What the mode branch of the [forEach] body leaves behind: the two
    targets of the blending and the rotation of the mesh. *)
Record Target := mkTarget {
  targetPos : Vec3;
  targetScale : R;
  meshRotation : Vec3
}.

(** The rotation of the parent group, first statement of [animate]. *)
Definition rotateGroup (mode : TreeMode) (mouse : Vec2) (delta : R)
  (r : Vec3) : Vec3 :=
  match mode with
  | SCATTER | FOCUS =>
    mkVec3 (vx r + (py mouse * 0.5 - vx r) * delta * 2)
           (vy r + (px mouse * 2 - vy r) * delta * 2)
           (vz r)
  | TREE =>
    mkVec3 (vx r * (1 - delta)) (vy r + delta * 0.2) (vz r)
  end.

Definition turnGroup (mode : TreeMode) (mouse : Vec2) (delta : R)
  (group : Group) : Group :=
  mkGroup (rotateGroup mode mouse delta (groupRotation group))
          (children group).

Section Engine.

(** The orientation of a mesh after [mesh.lookAt(camera.position)] followed
    by [mesh.quaternion.multiply(groupInv)], as Euler angles.  It is
    computed inside three.js from the camera position, the parent group and
    the mesh; the engine only stores it. *)
Variable lookAtThenMultiply : Vec3 -> Group -> Quaternion -> Object3D -> Vec3.

Definition particleTarget (mode : TreeMode) (focus : option nat)
  (camera : Vec3) (group : Group) (delta time : R) (p : ParticleData)
  : Target :=
  match mode with
  | TREE =>
    mkTarget (mkVec3 (vx (posTree p))
                     (vy (posTree p) + sin (time + phase p) * 0.2)
                     (vz (posTree p)))
             (baseScale p)
             (rotation (mesh p))
  | SCATTER =>
    mkTarget (mkVec3 (vx (posScatter p) + sin (time * 0.5 + phase p) * 1)
                     (vy (posScatter p))
                     (vz (posScatter p)))
             (baseScale p)
             (mkVec3 (vx (rotation (mesh p)) + vx (rotationSpeed p) * delta)
                     (vy (rotation (mesh p)) + vy (rotationSpeed p) * delta)
                     (vz (rotation (mesh p))))
  | FOCUS =>
    if isFocusTarget focus p then
      let groupInv := invert (setFromEuler (groupRotation group)) in
      mkTarget (applyQuaternion (mkVec3 0 0 35) groupInv)
               5.0
               (lookAtThenMultiply camera group groupInv (mesh p))
    else
      mkTarget (mkVec3 (vx (posScatter p) * 1.2)
                       (vy (posScatter p) * 1.2)
                       (vz (posScatter p) * 1.2))
               (baseScale p * 0.5)
               (rotation (mesh p))
  end.

Definition lerpSpeed (mode : TreeMode) (focus : option nat)
  (p : ParticleData) : R :=
  if TreeMode_eqb mode FOCUS && isFocusTarget focus p then 4.0 else 1.5.

(** One round of [particlesRef.current.forEach]. *)
Definition updateParticle (mode : TreeMode) (focus : option nat)
  (camera : Vec3) (group : Group) (delta time : R) (p : ParticleData)
  : ParticleData :=
  let t := particleTarget mode focus camera group delta time p in
  let speed := lerpSpeed mode focus p in
  let currentScale := vx (scale (mesh p)) in
  let newScale := MathUtils_lerp currentScale (targetScale t) (delta * 3) in
  mkParticle
    (mkObject3D (id (mesh p))
       (Vector3_lerp (position (mesh p)) (targetPos t) (delta * speed))
       (meshRotation t)
       (mkVec3 newScale newScale newScale))
    (type p) (posTree p) (posScatter p) (baseScale p) (rotationSpeed p)
    (phase p).

(** One render tick; [delta] and [time] are what the clock returns.  The
    tick does nothing unless the four three.js refs are set. *)
Definition animate (delta time : R) (s : State) : State :=
  match rendererRef s, composerRef s, cameraRef s, mainGroupRef s with
  | true, true, Some camera, Some group =>
    let mode := modeRef s in
    let group' := turnGroup mode (mouseRotationRef s) delta group in
    with_particles
      (map (updateParticle mode (focusTargetRef s) camera group' delta time)
           (particlesRef s))
      (with_mainGroup (Some group') s)
  | _, _, _, _ => s
  end.

End Engine.

(** ** Photo upload: [addPhotoParticle] *)

(** The seven [Math.random()] calls of [addPhotoParticle], in call order. *)
Record PhotoDraws := mkPhotoDraws {
  uTheta : R;
  uPhi : R;
  uY : R;
  uAngle : R;
  uSpinX : R;
  uSpinY : R;
  uSpinZ : R
}.

Open Scope js_scope.

(** [new THREE.Group()], a frame mesh and a plane mesh take three
    consecutive object ids; [group.add] of the two meshes concerns the
    renderer only. *)
Definition addPhotoParticle (u : PhotoDraws) : M unit :=
  g <- gets mainGroupRef ;;
  match g with
  | None => ret tt
  | Some mainGroup =>
    n <- gets nextObjectId ;;
    modify (with_nextObjectId (n + 3)) ;;;
    let rScatter := 25 in
    let theta := uTheta u * PI * 2 in
    let phi := acos (2 * uPhi u - 1) in
    let posScatter :=
      mkVec3 (rScatter * sin phi * cos theta)
             (rScatter * sin phi * sin theta)
             (rScatter * cos phi) in
    let h := 25 in
    let y := uY u * h - h / 2 in
    let angle := uAngle u * PI * 2 in
    let radius := 4 in
    let posTree := mkVec3 (cos angle * radius) y (sin angle * radius) in
    let group :=
      mkObject3D n posScatter (mkVec3 0 0 0) (mkVec3 1 1 1) in
    modify (with_mainGroup
              (Some (mkGroup (groupRotation mainGroup)
                             (children mainGroup ++ [n])))) ;;;
    ps <- gets particlesRef ;;
    modify (with_particles
              (ps ++ [mkParticle group PHOTO posTree posScatter 1
                        (mkVec3 (uSpinX u) (uSpinY u) (uSpinZ u)) 0])) ;;;
    modify (with_mode FOCUS) ;;;
    setMode FOCUS ;;;
    modify (with_focusTarget (Some n))
  end.

Close Scope js_scope.

(** ** Vocabulary of the properties *)

(** A hand frame as MediaPipe delivers it: the 21 landmarks of one hand. *)
Definition HandFrame (lm : list NormalizedLandmark) : Prop :=
  length lm = 21%nat.

(** A degenerate frame: all landmarks carry the same coordinates. *)
Definition Degenerate (lm : list NormalizedLandmark) : Prop :=
  forall a b, In a lm -> In b lm -> a = b.

(** The four three.js refs [animate] and [addPhotoParticle] test are set. *)
Definition SceneReady (s : State) : Prop :=
  rendererRef s = true /\ composerRef s = true /\
  cameraRef s <> None /\ mainGroupRef s <> None.

(** [focusTargetRef] holds no object of the registry. *)
Definition Dangling (s : State) : Prop :=
  forall p, In p (particlesRef s) -> focusTargetRef s <> Some (id (mesh p)).

Definition Isotropic (p : ParticleData) : Prop :=
  vx (scale (mesh p)) = vy (scale (mesh p)) /\
  vy (scale (mesh p)) = vz (scale (mesh p)).

(** [new] lies between [current] and [target]: no overshoot. *)
Definition Between (current target new : R) : Prop :=
  Rmin current target <= new <= Rmax current target.

Definition BetweenVec (current target new : Vec3) : Prop :=
  Between (vx current) (vx target) (vx new) /\
  Between (vy current) (vy target) (vy new) /\
  Between (vz current) (vz target) (vz new).

(** The clamped smoothing step the specification asks for. *)
Definition clampedStep (current target rate delta : R) : R :=
  current + (target - current) * Rmin 1 (rate * delta).

(** Every object id in use is below the next one three.js hands out. *)
Definition IdsBelowNext (s : State) : Prop :=
  forall p, In p (particlesRef s) -> (id (mesh p) < nextObjectId s)%nat.

(** ** Sample inputs *)

Definition landmarkAt (x y : R) : NormalizedLandmark := mkLandmark x y 0.

(** A frame given by the seven landmarks the classifier reads; the other
    fourteen sit on the wrist. *)
Definition frameOf (w thumb index knuckle middle ring pinky
                    : NormalizedLandmark) : list NormalizedLandmark :=
  [w; w; w; w; thumb; w; w; w; index; knuckle; w; w; middle;
   w; w; w; ring; w; w; w; pinky].

(** All 21 landmarks at the centre of the image. *)
Definition collapsedFrame : list NormalizedLandmark :=
  repeat (landmarkAt 0.5 0.5) 21.

(** Thumb and index tips 0.03 apart, the other tips 0.4 from the wrist. *)
Definition pinchFrame : list NormalizedLandmark :=
  frameOf (landmarkAt 0.5 0.9) (landmarkAt 0.5 0.53) (landmarkAt 0.5 0.5)
          (landmarkAt 0.5 0.7) (landmarkAt 0.5 0.5) (landmarkAt 0.5 0.5)
          (landmarkAt 0.5 0.5).

(** Thumb and index tips 0.1 apart, the four tips 0.3 from the wrist. *)
Definition halfOpenFrame : list NormalizedLandmark :=
  frameOf (landmarkAt 0.5 0.8) (landmarkAt 0.4 0.5) (landmarkAt 0.5 0.5)
          (landmarkAt 0.5 0.6) (landmarkAt 0.5 0.5) (landmarkAt 0.5 0.5)
          (landmarkAt 0.5 0.5).

Definition resultOf (lm : list NormalizedLandmark) : HandLandmarkerResult :=
  mkResult (Some [lm]).

Definition origin : Vec3 := mkVec3 0 0 0.
Definition ones : Vec3 := mkVec3 1 1 1.

(** A gold ornament at the origin, unit scale, base scale 2, spinning at
    one radian per second about each axis. *)
Definition ornament : ParticleData :=
  mkParticle (mkObject3D 7 origin origin ones) ORNAMENT_GOLD
             (mkVec3 1 0 0) (mkVec3 10 0 0) 2 ones 0.

Definition photoCard : ParticleData :=
  mkParticle (mkObject3D 8 origin origin ones) PHOTO
             (mkVec3 0 1 0) (mkVec3 0 10 0) 1 ones 0.

Definition readyState (ps : list ParticleData) (mode : TreeMode)
  (focus : option nat) : State :=
  mkState ps mode focus (mkVec2 0 0) (Some (mkVec3 0 0 45)) true true
          (Some (mkGroup origin [])) mode "Show Hand to Control" 9.

(** The component before [initThree] and [generateParticles] have run. *)
Definition blankState : State :=
  mkState [] TREE None (mkVec2 0 0) None false false None TREE
          "Initializing Vision..." 0.

(** An orientation oracle for the samples: the mesh keeps its angles. *)
Definition keepAngles (camera : Vec3) (group : Group) (groupInv : Quaternion)
  (m : Object3D) : Vec3 := rotation m.

(** ** Scene population: [generateParticles] *)

Definition CONFIG_counts_particles : nat := 800.

(** The [Math.random()] calls of one round of the population loop, in call
    order.  The draw that picks a texture for a photo card is left out with
    the textures themselves: they concern the renderer only. *)
Record ParticleDraws := mkParticleDraws {
  dRand : R;
  dY : R;
  dAngle : R;
  dRadius : R;
  dRScatter : R;
  dTheta : R;
  dPhi : R;
  dScale : R;
  dSpinX : R;
  dSpinY : R;
  dSpinZ : R;
  dPhase : R
}.

(** The category drawn from [rand], with the number of three.js objects
    the branch creates: a group with a frame and a plane for a photo card,
    one mesh otherwise.  The mesh of the particle is the first of them. *)
Definition createMesh (rand : R) : ParticleType * nat :=
  if Rltb rand 0.05 then (PHOTO, 3%nat)
  else if Rltb rand 0.4 then (BOX_GREEN, 1%nat)
  else if Rltb rand 0.7 then (ORNAMENT_GOLD, 1%nat)
  else (ORNAMENT_RED, 1%nat).

(** The particle pushed by one round; [n] is the next free object id. *)
Definition newParticle (d : ParticleDraws) (n : nat) : ParticleData :=
  let h := 25 in
  let y := dY d * h - h / 2 in
  let normalizedY := (y + h / 2) / h in
  let radiusAtY := 9 * (1 - normalizedY) in
  let angle := dAngle d * PI * 20 in
  let r := radiusAtY * sqrt (dRadius d) in
  let posTree := mkVec3 (cos angle * r) y (sin angle * r) in
  let rScatter := 15 + dRScatter d * 20 in
  let theta := dTheta d * PI * 2 in
  let phi := acos (2 * dPhi d - 1) in
  let posScatter :=
    mkVec3 (rScatter * sin phi * cos theta)
           (rScatter * sin phi * sin theta)
           (rScatter * cos phi) in
  let scale := 0.5 + dScale d * 0.5 in
  mkParticle
    (mkObject3D n posTree (mkVec3 0 0 0) (mkVec3 scale scale scale))
    (fst (createMesh (dRand d)))
    posTree posScatter scale
    (mkVec3 (dSpinX d * 2) (dSpinY d * 2) (dSpinZ d * 2))
    (dPhase d * PI * 2).

(** [count] rounds of the loop from round [i] on: the particles pushed so
    far, the children of the main group and the next free object id. *)
Fixpoint createMainElements (draws : nat -> ParticleDraws) (count i : nat)
  (n : nat) (particles : list ParticleData) (kids : list nat)
  : list ParticleData * list nat * nat :=
  match count with
  | O => (particles, kids, n)
  | S count' =>
    createMainElements draws count' (S i)
      (n + snd (createMesh (dRand (draws i))))
      (particles ++ [newParticle (draws i) n])
      (kids ++ [n])
  end.

(** [generateParticles]: nothing without the main group; otherwise the
    loop, then the dust system (one more object and child), then the
    assignment of the fresh array to [particlesRef]. *)
Definition generateParticles (draws : nat -> ParticleDraws) (s : State)
  : State :=
  match mainGroupRef s with
  | None => s
  | Some mainGroup =>
    match createMainElements draws CONFIG_counts_particles 0
            (nextObjectId s) [] (children mainGroup) with
    | (particles, kids, n) =>
      with_particles particles
        (with_mainGroup
           (Some (mkGroup (groupRotation mainGroup) (kids ++ [n])))
           (with_nextObjectId (n + 1) s))
    end
  end.

(** The object id counter after [count] rounds from round [i] on. *)
Fixpoint objectIdAfter (draws : nat -> ParticleDraws) (count i n : nat)
  : nat :=
  match count with
  | O => n
  | S count' =>
    objectIdAfter draws count' (S i) (n + snd (createMesh (dRand (draws i))))
  end.

(** ** The detection loop: [detect] inside [setupMediaPipe]

    One call of [detect] sees the video's [currentTime], and, when that is
    new, the result of the landmarker and the draw [handleGestures] may use.
    It returns the [lastVideoTime] it leaves behind; when [handleGestures]
    throws, [requestAnimationFrame(detect)] is never reached. *)
Definition detect (currentTime u : R) (result : HandLandmarkerResult)
  (lastVideoTime : R) (s : State) : Completion R * State :=
  if Req_dec_T currentTime lastVideoTime then (Normal lastVideoTime, s)
  else
    match handleGestures u result s with
    | (Normal _, s') => (Normal currentTime, s')
    | (Throw e, s') => (Throw e, s')
    end.

(** The calls of [detect] chained by [requestAnimationFrame]. *)
Fixpoint detectLoop (frames : list (R * R * HandLandmarkerResult))
  (lastVideoTime : R) (s : State) : Completion R * State :=
  match frames with
  | [] => (Normal lastVideoTime, s)
  | (currentTime, u, result) :: frames' =>
    match detect currentTime u result lastVideoTime s with
    | (Normal last, s') => detectLoop frames' last s'
    | (Throw e, s') => (Throw e, s')
    end
  end.

(** ** The render loop and successive uploads *)

(** The ticks chained by [requestAnimationFrame]; each is a pair of the
    clock's [delta] and elapsed [time]. *)
Definition animateLoop
  (lookAtThenMultiply : Vec3 -> Group -> Quaternion -> Object3D -> Vec3)
  (ticks : list (R * R)) (s : State) : State :=
  fold_left (fun s' tick => animate lookAtThenMultiply (fst tick) (snd tick) s')
            ticks s.

(** The [img.onload] callbacks of [handleUpload], in the order they fire:
    each adds one photo particle. *)
Fixpoint uploadAll (us : list PhotoDraws) : M unit :=
  match us with
  | [] => ret tt
  | u :: us' => bind (addPhotoParticle u) (fun _ => uploadAll us')
  end.

(** ** The component at work

    After mounting, three kinds of callbacks run, one at a time: a call of
    [detect], a render tick, and the [onload] of an uploaded image. *)
Inductive Event :=
| Frame (currentTime u : R) (result : HandLandmarkerResult)
| Tick (delta time : R)
| Upload (u : PhotoDraws).

(** A run of callbacks.  [detecting] tells whether [detect] is still
    scheduled: it is not once a call of it has thrown. *)
Fixpoint runSession
  (lookAtThenMultiply : Vec3 -> Group -> Quaternion -> Object3D -> Vec3)
  (events : list Event) (detecting : bool) (lastVideoTime : R) (s : State)
  : bool * R * State :=
  match events with
  | [] => (detecting, lastVideoTime, s)
  | Frame currentTime u result :: events' =>
    if detecting then
      match detect currentTime u result lastVideoTime s with
      | (Normal last, s') =>
        runSession lookAtThenMultiply events' true last s'
      | (Throw _, s') =>
        runSession lookAtThenMultiply events' false currentTime s'
      end
    else runSession lookAtThenMultiply events' false lastVideoTime s
  | Tick delta time :: events' =>
    runSession lookAtThenMultiply events' detecting lastVideoTime
      (animate lookAtThenMultiply delta time s)
  | Upload u :: events' =>
    runSession lookAtThenMultiply events' detecting lastVideoTime
      (snd (addPhotoParticle u s))
  end.

(** ** More vocabulary *)

(** What [Math.random()] promises. *)
Definition InUnit (u : R) : Prop := 0 <= u < 1.

Definition DrawsInUnit (d : ParticleDraws) : Prop :=
  InUnit (dRand d) /\ InUnit (dY d) /\ InUnit (dAngle d) /\
  InUnit (dRadius d) /\ InUnit (dRScatter d) /\ InUnit (dTheta d) /\
  InUnit (dPhi d) /\ InUnit (dScale d) /\ InUnit (dSpinX d) /\
  InUnit (dSpinY d) /\ InUnit (dSpinZ d) /\ InUnit (dPhase d).

Definition normSq (v : Vec3) : R := vx v * vx v + vy v * vy v + vz v * vz v.

Definition quatNormSq (q : Quaternion) : R :=
  qx q * qx q + qy q * qy q + qz q * qz q + qw q * qw q.

(** The scale an object is blended towards; it depends on the mode, the
    focus target and the object only. *)
Definition scaleGoal (mode : TreeMode) (focus : option nat)
  (p : ParticleData) : R :=
  match mode with
  | FOCUS => if isFocusTarget focus p then 5.0 else baseScale p * 0.5
  | _ => baseScale p
  end.

(** What a tick never changes of a particle. *)
Definition fixedPart (p : ParticleData)
  : nat * ParticleType * Vec3 * Vec3 * R * Vec3 * R :=
  (id (mesh p), type p, posTree p, posScatter p, baseScale p,
   rotationSpeed p, phase p).

(** [focusTargetRef] is empty or holds an object of the registry. *)
Definition FocusValid (s : State) : Prop :=
  match focusTargetRef s with
  | None => True
  | Some t => exists p, In p (particlesRef s) /\ id (mesh p) = t
  end.

(** The state the handlers keep once the registry is populated: the mode
    shown by [App] is the mode of the engine, a focus target is held
    exactly in FOCUS mode, and it is an object of the registry. *)
Definition Coherent (s : State) : Prop :=
  particlesRef s <> [] /\
  currentMode s = modeRef s /\
  (focusTargetRef s <> None <-> modeRef s = FOCUS) /\
  FocusValid s.

(** Every frame of a run carries no hand, or a hand of 21 landmarks first,
    and a draw that keeps the promise of [Math.random()]. *)
Definition GoodFrame (f : R * R * HandLandmarkerResult) : Prop :=
  InUnit (snd (fst f)) /\
  match landmarks (snd f) with
  | Some (lm :: _) => HandFrame lm
  | _ => True
  end.

Definition GoodEvent (e : Event) : Prop :=
  match e with
  | Frame currentTime u result => GoodFrame (currentTime, u, result)
  | _ => True
  end.

Definition NoHand (result : HandLandmarkerResult) : Prop :=
  landmarks result = None \/ landmarks result = Some [].

(** The sum of the deltas and the product of the factors [1 - delta] of a
    run of ticks. *)
Definition totalDelta (ticks : list (R * R)) : R :=
  fold_right (fun tick acc => fst tick + acc) 0 ticks.

Definition decay (ticks : list (R * R)) : R :=
  fold_right (fun tick acc => (1 - fst tick) * acc) 1 ticks.

(** ** More sample inputs *)

(** Every draw of every round at one half. *)
Definition midDraws (i : nat) : ParticleDraws :=
  mkParticleDraws 0.5 0.5 0.5 0.5 0.5 0.5 0.5 0.5 0.5 0.5 0.5 0.5.

Definition midPhotoDraws : PhotoDraws :=
  mkPhotoDraws 0.5 0.5 0.5 0.5 0.5 0.5 0.5.

(** A fist: thumb and index tips 0.1 apart, the four tips 0.2 from the
    wrist. *)
Definition fistFrame : list NormalizedLandmark :=
  frameOf (landmarkAt 0.5 0.7) (landmarkAt 0.4 0.5) (landmarkAt 0.5 0.5)
          (landmarkAt 0.5 0.6) (landmarkAt 0.5 0.5) (landmarkAt 0.5 0.5)
          (landmarkAt 0.5 0.5).

(** An open hand: thumb and index tips 0.1 apart, the four tips 0.4 from
    the wrist. *)
Definition openFrame : list NormalizedLandmark :=
  frameOf (landmarkAt 0.5 0.9) (landmarkAt 0.4 0.5) (landmarkAt 0.5 0.5)
          (landmarkAt 0.5 0.7) (landmarkAt 0.5 0.5) (landmarkAt 0.5 0.5)
          (landmarkAt 0.5 0.5).

(** ** Arithmetic of the features *)

Lemma hypot_0_0 : hypot 0 0 = 0.
Proof.
  unfold hypot. replace (0 * 0 + 0 * 0) with 0 by ring. apply sqrt_0.
Qed.

Lemma hypot_nonneg (a b : R) : 0 <= hypot a b.
Proof. apply sqrt_pos. Qed.

Lemma hypot_lt (a b c : R) : 0 < c -> a * a + b * b < c * c -> hypot a b < c.
Proof.
  intros Hc H. unfold hypot.
  rewrite <- (sqrt_square c) by lra.
  apply sqrt_lt_1_alt. split; [nra | exact H].
Qed.

Lemma hypot_eq (a b c : R) : 0 <= c -> a * a + b * b = c * c -> hypot a b = c.
Proof.
  intros Hc H. unfold hypot. rewrite H. apply sqrt_square. exact Hc.
Qed.

Lemma Rltb_true (a b : R) : a < b -> Rltb a b = true.
Proof. intros H. unfold Rltb. destruct (Rlt_dec a b); [reflexivity | lra]. Qed.

Lemma Rltb_false (a b : R) : b <= a -> Rltb a b = false.
Proof. intros H. unfold Rltb. destruct (Rlt_dec a b); [lra | reflexivity]. Qed.

(** ** The classifier, step by step *)

Lemma frame_landmark (lm : list NormalizedLandmark) (i : nat) :
  HandFrame lm -> (i < 21)%nat -> exists l, nth_error lm i = Some l.
Proof.
  unfold HandFrame. intros Hlen Hi.
  destruct (nth_error lm i) as [l|] eqn:E.
  - now exists l.
  - apply nth_error_None in E. lia.
Qed.

Lemma frame_features (lm : list NormalizedLandmark) :
  HandFrame lm ->
  exists d o h,
    pinchDist lm = Some d /\ avgDistToWrist lm = Some o /\
    handXY lm = Some h.
Proof.
  intros Hf.
  destruct (frame_landmark lm 0 Hf) as [w Hw]; [lia|].
  destruct (frame_landmark lm 4 Hf) as [t Ht]; [lia|].
  destruct (frame_landmark lm 8 Hf) as [i Hi]; [lia|].
  destruct (frame_landmark lm 9 Hf) as [k Hk]; [lia|].
  destruct (frame_landmark lm 12 Hf) as [m Hm]; [lia|].
  destruct (frame_landmark lm 16 Hf) as [r Hr]; [lia|].
  destruct (frame_landmark lm 20 Hf) as [p Hp]; [lia|].
  unfold pinchDist, avgDistToWrist, handXY, thumbTip, indexTip, middleTip,
    ringTip, pinkyTip, middleKnuckle.
  rewrite Ht, Hi, Hk, Hm, Hr, Hp. cbn [fold_left].
  unfold addDistToWrist, wrist. rewrite Hw.
  do 3 eexists. repeat split; reflexivity.
Qed.

Lemma handleGestures_frame (u : R) (result : HandLandmarkerResult)
  (lm : list NormalizedLandmark) (rest : list (list NormalizedLandmark))
  (d o : R) (h : Vec2) (s : State) :
  landmarks result = Some (lm :: rest) ->
  pinchDist lm = Some d -> avgDistToWrist lm = Some o -> handXY lm = Some h ->
  handleGestures u result s = switchMode u d o (with_mouseRotation h s).
Proof.
  intros Hl Hd Ho Hh. unfold handleGestures. rewrite Hl, Hd, Ho, Hh.
  reflexivity.
Qed.

Lemma switchMode_pinch (u d o : R) (s : State) :
  d < PINCH_THRESHOLD ->
  switchMode u d o s =
  if TreeMode_eqb (modeRef s) FOCUS then (Normal tt, s)
  else pickFocusTarget u
         (with_gestureHint "Inspecting Memory"
            (with_currentMode FOCUS (with_mode FOCUS s))).
Proof.
  intros Hd. unfold switchMode, bind, gets. cbn beta iota.
  rewrite (Rltb_true _ _ Hd).
  destruct (TreeMode_eqb (modeRef s) FOCUS); reflexivity.
Qed.

Lemma switchMode_dead_zone (u d o : R) (s : State) :
  PINCH_THRESHOLD <= d -> FIST_THRESHOLD <= o <= OPEN_THRESHOLD ->
  switchMode u d o s = (Normal tt, s).
Proof.
  intros Hd [Hlo Hhi]. unfold switchMode, bind, gets, Rgtb. cbn beta iota.
  rewrite (Rltb_false _ _ Hd), (Rltb_false _ _ Hlo), (Rltb_false _ _ Hhi).
  reflexivity.
Qed.

(** Picking a focus target writes [focusTargetRef] only. *)
Lemma pickFocusTarget_frame (u : R) (s : State) :
  let s' := snd (pickFocusTarget u s) in
  modeRef s' = modeRef s /\ particlesRef s' = particlesRef s /\
  currentMode s' = currentMode s.
Proof.
  unfold pickFocusTarget, bind, gets. cbn beta iota.
  destruct (0 <? _)%nat.
  - destruct (jsIndex _ _); cbn; auto.
  - destruct (jsIndex _ _); cbn; auto.
Qed.

Lemma TreeMode_eqb_eq (a b : TreeMode) : TreeMode_eqb a b = true <-> a = b.
Proof. destruct a, b; cbn; split; congruence. Qed.

(** ** Features of the sample frames *)

Lemma collapsedFrame_degenerate : Degenerate collapsedFrame.
Proof.
  intros a b Ha Hb. unfold collapsedFrame in *.
  apply repeat_spec in Ha. apply repeat_spec in Hb. congruence.
Qed.

Lemma pinchFrame_pinch :
  exists d, pinchDist pinchFrame = Some d /\ d < PINCH_THRESHOLD.
Proof.
  eexists. split; [reflexivity|].
  cbn. apply hypot_lt; unfold PINCH_THRESHOLD; lra.
Qed.

Lemma halfOpenFrame_pinch : pinchDist halfOpenFrame = Some 0.1.
Proof.
  cbn. f_equal. apply hypot_eq; lra.
Qed.

Lemma halfOpenFrame_openness : avgDistToWrist halfOpenFrame = Some 0.3.
Proof.
  cbn. f_equal.
  replace (hypot (0.5 - 0.5) (0.5 - 0.8)) with 0.3
    by (symmetry; apply hypot_eq; lra).
  lra.
Qed.

(** ** Claims about the classifier *)

(** C1. A hand frame whose pinch distance is below 0.05 leaves the mode at
    FOCUS, whatever the openness and the mode before (the pinch test comes
    first).  This holds for the mode even when picking the focus target
    throws. *)
Theorem C1_pinch_yields_focus (u : R) (result : HandLandmarkerResult)
  (lm : list NormalizedLandmark) (rest : list (list NormalizedLandmark))
  (d : R) (s : State) :
  landmarks result = Some (lm :: rest) ->
  HandFrame lm ->
  pinchDist lm = Some d ->
  d < PINCH_THRESHOLD ->
  modeRef (snd (handleGestures u result s)) = FOCUS.
Proof.
  intros Hl Hf Hd Hlt.
  destruct (frame_features lm Hf) as (d' & o & h & Hd' & Ho & Hh).
  rewrite Hd in Hd'. injection Hd' as <-.
  rewrite (handleGestures_frame u result lm rest d o h s Hl Hd Ho Hh).
  rewrite switchMode_pinch by exact Hlt.
  destruct (TreeMode_eqb (modeRef (with_mouseRotation h s)) FOCUS) eqn:E.
  - apply TreeMode_eqb_eq in E. exact E.
  - destruct (pickFocusTarget_frame u
      (with_gestureHint "Inspecting Memory"
         (with_currentMode FOCUS (with_mode FOCUS (with_mouseRotation h s)))))
      as [Hm _].
    rewrite Hm. reflexivity.
Qed.

Lemma C1_pinch_yields_focus_witness :
  modeRef (snd (handleGestures 0 (resultOf pinchFrame)
                  (readyState [ornament] SCATTER None))) = FOCUS.
Proof.
  apply (C1_pinch_yields_focus 0 (resultOf pinchFrame) pinchFrame []
           (hypot (0.5 - 0.5) (0.53 - 0.5))).
  - reflexivity.
  - reflexivity.
  - reflexivity.
  - apply hypot_lt; unfold PINCH_THRESHOLD; lra.
Defined.

(** C4. In the dead zone (openness between 0.25 and 0.35, both included,
    and pinch distance at least 0.05) the classifier leaves the mode as it
    was, for every mode before. *)
Theorem C4_dead_zone_keeps_mode (u : R) (result : HandLandmarkerResult)
  (lm : list NormalizedLandmark) (rest : list (list NormalizedLandmark))
  (d o : R) (s : State) :
  landmarks result = Some (lm :: rest) ->
  HandFrame lm ->
  pinchDist lm = Some d ->
  avgDistToWrist lm = Some o ->
  0.25 <= o <= 0.35 ->
  0.05 <= d ->
  modeRef (snd (handleGestures u result s)) = modeRef s.
Proof.
  intros Hl Hf Hd Ho Hrange Hpinch.
  destruct (frame_features lm Hf) as (d' & o' & h & _ & _ & Hh).
  rewrite (handleGestures_frame u result lm rest d o h s Hl Hd Ho Hh).
  rewrite switchMode_dead_zone; [reflexivity | exact Hpinch | exact Hrange].
Qed.

Lemma C4_dead_zone_keeps_mode_witness :
  modeRef (snd (handleGestures 0 (resultOf halfOpenFrame)
                  (readyState [ornament] SCATTER None))) = SCATTER.
Proof.
  apply (C4_dead_zone_keeps_mode 0 (resultOf halfOpenFrame) halfOpenFrame []
           0.1 0.3 (readyState [ornament] SCATTER None)).
  - reflexivity.
  - reflexivity.
  - exact halfOpenFrame_pinch.
  - exact halfOpenFrame_openness.
  - lra.
  - lra.
Defined.

(** C5. When the mode is already FOCUS, a pinching frame leaves the focus
    target as it was: the handler ends normally and selects nothing. *)
Theorem C5_repinch_keeps_focus_target (u : R) (result : HandLandmarkerResult)
  (lm : list NormalizedLandmark) (rest : list (list NormalizedLandmark))
  (d : R) (s : State) :
  landmarks result = Some (lm :: rest) ->
  HandFrame lm ->
  pinchDist lm = Some d ->
  d < PINCH_THRESHOLD ->
  modeRef s = FOCUS ->
  fst (handleGestures u result s) = Normal tt /\
  focusTargetRef (snd (handleGestures u result s)) = focusTargetRef s.
Proof.
  intros Hl Hf Hd Hlt Hmode.
  destruct (frame_features lm Hf) as (d' & o & h & Hd' & Ho & Hh).
  rewrite Hd in Hd'. injection Hd' as <-.
  rewrite (handleGestures_frame u result lm rest d o h s Hl Hd Ho Hh).
  rewrite switchMode_pinch by exact Hlt.
  cbn [modeRef with_mouseRotation]. rewrite Hmode. cbn. auto.
Qed.

Lemma C5_repinch_keeps_focus_target_witness :
  focusTargetRef (snd (handleGestures 0 (resultOf pinchFrame)
                         (readyState [ornament; photoCard] FOCUS (Some 7%nat))))
  = Some 7%nat.
Proof.
  apply (C5_repinch_keeps_focus_target 0 (resultOf pinchFrame) pinchFrame []
           (hypot (0.5 - 0.5) (0.53 - 0.5))
           (readyState [ornament; photoCard] FOCUS (Some 7%nat))).
  - reflexivity.
  - reflexivity.
  - reflexivity.
  - apply hypot_lt; unfold PINCH_THRESHOLD; lra.
  - reflexivity.
Defined.

(** ** Selecting the focus target *)

(** [Math.floor(u * n)] is an index of an array of length [n > 0]. *)
Lemma random_index_in_range (u : R) (n : nat) :
  0 <= u < 1 -> (0 < n)%nat ->
  (0 <= Zfloor (u * INR n) < Z.of_nat n)%Z.
Proof.
  intros [Hu0 Hu1] Hn.
  assert (HnR : 0 < INR n) by (apply lt_0_INR; exact Hn).
  pose proof (Zfloor_bound (u * INR n)) as [Hlo _].
  split.
  - apply Zfloor_lub. cbn. nra.
  - apply lt_IZR. rewrite <- INR_IZR_INZ. nra.
Qed.

Lemma jsIndex_in_range {A : Type} (arr : list A) (k : Z) :
  (0 <= k < Z.of_nat (length arr))%Z ->
  exists a, jsIndex arr k = Some a /\ In a arr.
Proof.
  intros Hk. unfold jsIndex.
  destruct (k <? 0)%Z eqn:E; [apply Z.ltb_lt in E; lia|].
  destruct (nth_error arr (Z.to_nat k)) as [a|] eqn:En.
  - exists a. split; [reflexivity | eapply nth_error_In; exact En].
  - apply nth_error_None in En. lia.
Qed.

(** With at least one photo in the registry the target is a photo, the one
    at index [Math.floor(u * photos.length)]. *)
Lemma pickFocusTarget_photo (u : R) (s : State) :
  let photos :=
    filter (fun p => ParticleType_eqb (type p) PHOTO) (particlesRef s) in
  0 <= u < 1 -> photos <> [] ->
  exists p,
    nth_error photos (Z.to_nat (Zfloor (u * INR (length photos)))) = Some p /\
    In p (particlesRef s) /\ type p = PHOTO /\
    pickFocusTarget u s
    = (Normal tt, with_focusTarget (Some (id (mesh p))) s).
Proof.
  intros photos Hu Hne.
  assert (Hlen : (0 < length photos)%nat)
    by (destruct photos; [congruence | cbn; lia]).
  pose proof (random_index_in_range u (length photos) Hu Hlen) as Hk.
  destruct (jsIndex_in_range photos _ Hk) as (p & Hp & Hin).
  exists p.
  apply filter_In in Hin as Hin'. destruct Hin' as [HinAll Hty].
  repeat split.
  - unfold jsIndex in Hp.
    destruct (Zfloor (u * INR (length photos)) <? 0)%Z; [discriminate|].
    exact Hp.
  - exact HinAll.
  - destruct (type p); cbn in Hty; congruence.
  - unfold pickFocusTarget, bind, gets. cbn beta iota.
    fold photos. apply Nat.ltb_lt in Hlen. rewrite Hlen.
    rewrite Hp. reflexivity.
Qed.

(** The index drawn is [i] exactly when [u] falls in the [i]-th of the [n]
    equal parts of the unit interval: each photo has the same share. *)
Lemma random_index_uniform (u : R) (n i : nat) :
  0 <= u < 1 -> (i < n)%nat ->
  (Zfloor (u * INR n) = Z.of_nat i
   <-> INR i / INR n <= u < (INR i + 1) / INR n).
Proof.
  intros Hu Hi.
  assert (HnR : 0 < INR n) by (apply lt_0_INR; lia).
  pose proof (Zfloor_bound (u * INR n)) as Hb.
  assert (Ei : INR i / INR n * INR n = INR i) by (field; lra).
  assert (Ei1 : (INR i + 1) / INR n * INR n = INR i + 1) by (field; lra).
  split.
  - intros E. rewrite E, <- INR_IZR_INZ in Hb. split.
    + apply (Rmult_le_reg_r (INR n)); [exact HnR | lra].
    + apply (Rmult_lt_reg_r (INR n)); [exact HnR | lra].
  - intros [Hlo Hhi]. apply Zfloor_eq. rewrite <- INR_IZR_INZ.
    apply (Rmult_le_compat_r (INR n)) in Hlo; [| lra].
    apply (Rmult_lt_compat_r (INR n)) in Hhi; [| exact HnR]. lra.
Qed.

(** Without photos the target is the first particle, when there is one. *)
Lemma pickFocusTarget_fallback (u : R) (s : State) (p : ParticleData)
  (ps : list ParticleData) :
  particlesRef s = p :: ps ->
  filter (fun q => ParticleType_eqb (type q) PHOTO) (particlesRef s) = [] ->
  pickFocusTarget u s = (Normal tt, with_focusTarget (Some (id (mesh p))) s).
Proof.
  intros Hps Hnone. unfold pickFocusTarget, bind, gets. cbn beta iota.
  rewrite Hnone, Hps. reflexivity.
Qed.

(** On an empty registry the fallback reads [.mesh] of [undefined]. *)
Lemma pickFocusTarget_empty (u : R) (s : State) :
  particlesRef s = [] -> pickFocusTarget u s = (Throw TypeError, s).
Proof.
  intros Hps. unfold pickFocusTarget, bind, gets. cbn beta iota.
  rewrite Hps. reflexivity.
Qed.

Lemma pickFocusTarget_normal (u : R) (s : State) :
  0 <= u < 1 -> particlesRef s <> [] ->
  fst (pickFocusTarget u s) = Normal tt.
Proof.
  intros Hu Hne.
  destruct (filter (fun q => ParticleType_eqb (type q) PHOTO) (particlesRef s))
    as [|q qs] eqn:E.
  - destruct (particlesRef s) as [|p ps] eqn:Hps; [congruence|].
    rewrite (pickFocusTarget_fallback u s p ps Hps); [reflexivity|].
    rewrite Hps. exact E.
  - destruct (pickFocusTarget_photo u s Hu) as (p & _ & _ & _ & Heq).
    + rewrite E. discriminate.
    + rewrite Heq. reflexivity.
Qed.

(** ** Degenerate frames *)

Lemma degenerate_features (lm : list NormalizedLandmark) :
  HandFrame lm -> Degenerate lm ->
  pinchDist lm = Some 0 /\ avgDistToWrist lm = Some 0.
Proof.
  intros Hf Hdeg.
  destruct (frame_landmark lm 0 Hf) as [w Hw]; [lia|].
  assert (Hall : forall i, (i < 21)%nat -> nth_error lm i = Some w).
  { intros i Hi. destruct (frame_landmark lm i Hf Hi) as [l Hl].
    rewrite Hl. f_equal. apply Hdeg; eapply nth_error_In; eassumption. }
  unfold pinchDist, avgDistToWrist, thumbTip, indexTip, middleTip, ringTip,
    pinkyTip.
  rewrite !Hall by lia. cbn [fold_left].
  unfold addDistToWrist, wrist. rewrite Hw.
  rewrite !Rminus_diag, hypot_0_0. split; f_equal; lra.
Qed.

(** C2, amended.  A degenerate hand frame has openness 0, and for the same
    reason pinch distance 0; the pinch test comes first, so the frame is
    classified as FOCUS and not as TREE.  The handler treats the frame as
    normal input: it ends normally whenever [Math.random()] keeps its
    contract and the registry holds an object. *)
Theorem C2_degenerate_frame_is_pinch (u : R) (result : HandLandmarkerResult)
  (lm : list NormalizedLandmark) (rest : list (list NormalizedLandmark))
  (s : State) :
  landmarks result = Some (lm :: rest) ->
  HandFrame lm ->
  Degenerate lm ->
  avgDistToWrist lm = Some 0 /\
  pinchDist lm = Some 0 /\
  modeRef (snd (handleGestures u result s)) = FOCUS /\
  (0 <= u < 1 -> particlesRef s <> [] ->
   fst (handleGestures u result s) = Normal tt).
Proof.
  intros Hl Hf Hdeg.
  destruct (degenerate_features lm Hf Hdeg) as [Hd Ho].
  destruct (frame_features lm Hf) as (d' & o' & h & _ & _ & Hh).
  rewrite (handleGestures_frame u result lm rest 0 0 h s Hl Hd Ho Hh).
  assert (Hlt : 0 < PINCH_THRESHOLD) by (unfold PINCH_THRESHOLD; lra).
  rewrite switchMode_pinch by exact Hlt.
  repeat split; try assumption.
  - destruct (TreeMode_eqb (modeRef (with_mouseRotation h s)) FOCUS) eqn:E.
    + apply TreeMode_eqb_eq in E. exact E.
    + destruct (pickFocusTarget_frame u
        (with_gestureHint "Inspecting Memory"
           (with_currentMode FOCUS
              (with_mode FOCUS (with_mouseRotation h s))))) as [Hm _].
      rewrite Hm. reflexivity.
  - intros Hu Hne.
    destruct (TreeMode_eqb (modeRef (with_mouseRotation h s)) FOCUS).
    + reflexivity.
    + apply pickFocusTarget_normal; [exact Hu | exact Hne].
Qed.

Lemma C2_degenerate_frame_is_pinch_witness :
  modeRef (snd (handleGestures 0 (resultOf collapsedFrame)
                  (readyState [ornament] TREE None))) = FOCUS /\
  fst (handleGestures 0 (resultOf collapsedFrame)
         (readyState [ornament] TREE None)) = Normal tt.
Proof.
  destruct (C2_degenerate_frame_is_pinch 0 (resultOf collapsedFrame)
              collapsedFrame [] (readyState [ornament] TREE None))
    as (_ & _ & Hmode & Hnormal).
  - reflexivity.
  - reflexivity.
  - exact collapsedFrame_degenerate.
  - split; [exact Hmode | apply Hnormal; [lra | discriminate]].
Defined.

(** C2 as stated fails: the frame with all 21 landmarks at (0.5, 0.5) has
    openness 0, and classifying it from TREE leaves the mode at FOCUS. *)
Lemma C2_degenerate_frame_counterexample :
  HandFrame collapsedFrame /\ Degenerate collapsedFrame /\
  avgDistToWrist collapsedFrame = Some 0 /\
  modeRef (snd (handleGestures 0 (resultOf collapsedFrame)
                  (readyState [ornament] TREE None))) <> TREE.
Proof.
  assert (Hf : HandFrame collapsedFrame) by reflexivity.
  destruct (degenerate_features collapsedFrame Hf collapsedFrame_degenerate)
    as [Hd Ho].
  repeat split; try assumption.
  - exact collapsedFrame_degenerate.
  - assert (Hh : handXY collapsedFrame
                 = Some (mkVec2 ((0.5 - 0.5) * -2) ((0.5 - 0.5) * -2)))
      by reflexivity.
    rewrite (handleGestures_frame 0 (resultOf collapsedFrame) collapsedFrame
               [] 0 0 _ _ eq_refl Hd Ho Hh).
    rewrite switchMode_pinch by (unfold PINCH_THRESHOLD; lra).
    cbn. discriminate.
Qed.

(** ** The empty registry *)

(** C6 as stated fails on the one registry state it also covers, the
    empty registry: there a pinching frame classified from TREE sets the
    mode to FOCUS and then throws a TypeError while reading
    [particlesRef.current[0].mesh]; the focus target stays empty. *)
Lemma C6_focus_selection_counterexample :
  fst (handleGestures 0 (resultOf pinchFrame) blankState) = Throw TypeError /\
  modeRef (snd (handleGestures 0 (resultOf pinchFrame) blankState)) = FOCUS /\
  focusTargetRef (snd (handleGestures 0 (resultOf pinchFrame) blankState))
  = None.
Proof.
  assert (Hd : pinchDist pinchFrame = Some (hypot (0.5 - 0.5) (0.53 - 0.5)))
    by reflexivity.
  destruct (frame_features pinchFrame eq_refl) as (d & o & h & _ & Ho & Hh).
  rewrite (handleGestures_frame 0 (resultOf pinchFrame) pinchFrame
             [] _ o h blankState eq_refl Hd Ho Hh).
  rewrite switchMode_pinch by (apply hypot_lt; unfold PINCH_THRESHOLD; lra).
  cbn [modeRef with_mouseRotation blankState TreeMode_eqb].
  rewrite pickFocusTarget_empty by reflexivity.
  cbn. auto.
Qed.

(** ** The render tick, step by step *)

Section EngineFacts.

Variable lookAtThenMultiply : Vec3 -> Group -> Quaternion -> Object3D -> Vec3.

Lemma SceneReady_refs (s : State) :
  SceneReady s ->
  exists camera group,
    rendererRef s = true /\ composerRef s = true /\
    cameraRef s = Some camera /\ mainGroupRef s = Some group.
Proof.
  intros (Hr & Hc & Hcam & Hg).
  destruct (cameraRef s) as [camera|]; [| congruence].
  destruct (mainGroupRef s) as [group|]; [| congruence].
  exists camera, group. auto.
Qed.

Lemma animate_ready (delta time : R) (s : State) (camera : Vec3)
  (group : Group) :
  rendererRef s = true -> composerRef s = true ->
  cameraRef s = Some camera -> mainGroupRef s = Some group ->
  let group' := turnGroup (modeRef s) (mouseRotationRef s) delta group in
  animate lookAtThenMultiply delta time s
  = with_particles
      (map (updateParticle lookAtThenMultiply (modeRef s) (focusTargetRef s)
              camera group' delta time)
           (particlesRef s))
      (with_mainGroup (Some group') s).
Proof.
  intros Hr Hc Hcam Hg. unfold animate. rewrite Hr, Hc, Hcam, Hg.
  reflexivity.
Qed.

(** A tick either does nothing or rewrites every particle. *)
Lemma animate_cases (delta time : R) (s : State) :
  animate lookAtThenMultiply delta time s = s \/
  exists camera group,
    cameraRef s = Some camera /\
    particlesRef (animate lookAtThenMultiply delta time s)
    = map (updateParticle lookAtThenMultiply (modeRef s) (focusTargetRef s)
             camera group delta time)
          (particlesRef s).
Proof.
  unfold animate.
  destruct (rendererRef s); [| now left].
  destruct (composerRef s); [| now left].
  destruct (cameraRef s) as [camera|]; [| now left].
  destruct (mainGroupRef s) as [group|]; [| now left].
  right. eexists _, _. split; reflexivity.
Qed.

Lemma animate_particle (delta time : R) (s : State) (i : nat)
  (p : ParticleData) :
  SceneReady s ->
  nth_error (particlesRef s) i = Some p ->
  exists camera group,
    cameraRef s = Some camera /\
    mainGroupRef (animate lookAtThenMultiply delta time s) = Some group /\
    nth_error (particlesRef (animate lookAtThenMultiply delta time s)) i
    = Some (updateParticle lookAtThenMultiply (modeRef s) (focusTargetRef s)
              camera group delta time p).
Proof.
  intros Hready Hp.
  destruct (SceneReady_refs s Hready) as (camera & group & Hr & Hc & Hcam & Hg).
  rewrite (animate_ready delta time s camera group Hr Hc Hcam Hg).
  eexists _, _. split; [exact Hcam|]. split; [reflexivity|].
  cbn [particlesRef with_particles]. rewrite nth_error_map, Hp. reflexivity.
Qed.

Lemma update_isotropic (mode : TreeMode) (focus : option nat) (camera : Vec3)
  (group : Group) (delta time : R) (p : ParticleData) :
  Isotropic
    (updateParticle lookAtThenMultiply mode focus camera group delta time p).
Proof. split; reflexivity. Qed.

Lemma isFocusTarget_dangling (s : State) (p : ParticleData) :
  Dangling s -> In p (particlesRef s) ->
  isFocusTarget (focusTargetRef s) p = false.
Proof.
  intros Hd Hin. unfold isFocusTarget.
  destruct (focusTargetRef s) as [t|] eqn:E; [| reflexivity].
  apply Nat.eqb_neq. intros Heq. apply (Hd p Hin). congruence.
Qed.

Lemma update_not_focused (focus : option nat) (camera : Vec3) (group : Group)
  (delta time : R) (p : ParticleData) :
  isFocusTarget focus p = false ->
  updateParticle lookAtThenMultiply FOCUS focus camera group delta time p
  = updateParticle lookAtThenMultiply FOCUS None camera group delta time p.
Proof.
  intros H. unfold updateParticle, particleTarget, lerpSpeed.
  rewrite H. reflexivity.
Qed.

Lemma lerp_between (x y t : R) :
  0 <= t <= 1 -> Between x y (x + (y - x) * t).
Proof.
  intros Ht. unfold Between, Rmin, Rmax.
  destruct (Rle_dec x y); split; nra.
Qed.

Lemma lerp_overshoot (x y t : R) :
  1 < t -> x <> y -> ~ Between x y (x + (y - x) * t).
Proof.
  intros Ht Hxy. unfold Between, Rmin, Rmax.
  destruct (Rle_dec x y); intros [H1 H2]; nra.
Qed.

Lemma Vector3_lerp_overshoot (v w : Vec3) (t : R) :
  1 < t -> v <> w -> ~ BetweenVec v w (Vector3_lerp v w t).
Proof.
  intros Ht Hvw (Hx & Hy & Hz). apply Hvw.
  destruct v as [x y z], w as [x' y' z']. cbn in Hx, Hy, Hz.
  destruct (Req_dec x x') as [-> | Nx];
    [| exfalso; exact (lerp_overshoot x x' t Ht Nx Hx)].
  destruct (Req_dec y y') as [-> | Ny];
    [| exfalso; exact (lerp_overshoot y y' t Ht Ny Hy)].
  destruct (Req_dec z z') as [-> | Nz];
    [| exfalso; exact (lerp_overshoot z z' t Ht Nz Hz)].
  reflexivity.
Qed.

Lemma MathUtils_lerp_step (x y t : R) :
  MathUtils_lerp x y t = x + (y - x) * t.
Proof. unfold MathUtils_lerp. ring. Qed.

End EngineFacts.

(** ** Claims about the render tick *)

Section EngineClaims.

Variable lookAtThenMultiply : Vec3 -> Group -> Quaternion -> Object3D -> Vec3.

(** C3, amended.  On every tick of an initialised scene every object's
    position advances by (target - current) * (speed * delta) and its scale
    by (target - current) * (3 * delta): the factor is not clamped to 1.
    The new value lies between the current one and the target whenever
    rate * delta is between 0 and 1, and beyond the target whenever
    rate * delta exceeds 1 and the target differs from the current value. *)
Theorem C3_smoothing_unclamped (delta time : R) (s : State) (i : nat)
  (p : ParticleData) :
  SceneReady s ->
  nth_error (particlesRef s) i = Some p ->
  exists camera group p',
    cameraRef s = Some camera /\
    mainGroupRef (animate lookAtThenMultiply delta time s) = Some group /\
    nth_error (particlesRef (animate lookAtThenMultiply delta time s)) i
    = Some p' /\
    let t := particleTarget lookAtThenMultiply (modeRef s) (focusTargetRef s)
               camera group delta time p in
    let speed := lerpSpeed (modeRef s) (focusTargetRef s) p in
    let current := position (mesh p) in
    let currentScale := vx (scale (mesh p)) in
    let newScale :=
      currentScale + (targetScale t - currentScale) * (3 * delta) in
    position (mesh p')
    = mkVec3 (vx current + (vx (targetPos t) - vx current) * (speed * delta))
             (vy current + (vy (targetPos t) - vy current) * (speed * delta))
             (vz current + (vz (targetPos t) - vz current) * (speed * delta)) /\
    scale (mesh p') = mkVec3 newScale newScale newScale /\
    (0 <= speed * delta <= 1 ->
     BetweenVec current (targetPos t) (position (mesh p'))) /\
    (0 <= 3 * delta <= 1 ->
     Between currentScale (targetScale t) (vx (scale (mesh p')))) /\
    (1 < speed * delta -> current <> targetPos t ->
     ~ BetweenVec current (targetPos t) (position (mesh p'))) /\
    (1 < 3 * delta -> currentScale <> targetScale t ->
     ~ Between currentScale (targetScale t) (vx (scale (mesh p')))).
Proof.
  intros Hready Hp.
  destruct (animate_particle lookAtThenMultiply delta time s i p Hready Hp)
    as (camera & group & Hcam & Hg & Hnth).
  exists camera, group. eexists. split; [exact Hcam|].
  split; [exact Hg|]. split; [exact Hnth|].
  cbn zeta. unfold updateParticle.
  cbn [mesh position scale vx vy vz].
  set (t := particleTarget lookAtThenMultiply (modeRef s) (focusTargetRef s)
              camera group delta time p).
  set (speed := lerpSpeed (modeRef s) (focusTargetRef s) p).
  rewrite MathUtils_lerp_step.
  replace (delta * speed) with (speed * delta) by ring.
  replace (delta * 3) with (3 * delta) by ring.
  split; [reflexivity|]. split; [reflexivity|].
  split; [| split; [| split]].
  - intros Ht. repeat split; apply lerp_between; exact Ht.
  - intros Ht. apply lerp_between; exact Ht.
  - intros Ht Hne. apply Vector3_lerp_overshoot; assumption.
  - intros Ht Hne. apply lerp_overshoot; assumption.
Qed.

(** C7, amended.  In FOCUS mode a focus target that is no object of the
    registry counts as no focus target at all: the tick gives the same
    particles and the same group as with an empty [focusTargetRef], and it
    does not fail.  Every object is then handled as a non-focused one
    (blended at speed 1.5 towards 1.2 times its scatter position and half
    its base scale, rotation untouched), not as in TREE mode. *)
Theorem C7_dangling_focus_is_no_focus (delta time : R) (s : State) :
  modeRef s = FOCUS ->
  Dangling s ->
  particlesRef (animate lookAtThenMultiply delta time s)
  = particlesRef
      (animate lookAtThenMultiply delta time (with_focusTarget None s)) /\
  mainGroupRef (animate lookAtThenMultiply delta time s)
  = mainGroupRef
      (animate lookAtThenMultiply delta time (with_focusTarget None s)) /\
  forall i p,
    SceneReady s ->
    nth_error (particlesRef s) i = Some p ->
    exists p',
      nth_error (particlesRef (animate lookAtThenMultiply delta time s)) i
      = Some p' /\
      position (mesh p')
      = Vector3_lerp (position (mesh p))
          (mkVec3 (vx (posScatter p) * 1.2) (vy (posScatter p) * 1.2)
                  (vz (posScatter p) * 1.2))
          (delta * 1.5) /\
      rotation (mesh p') = rotation (mesh p) /\
      scale (mesh p')
      = (let n := MathUtils_lerp (vx (scale (mesh p)))
                    (baseScale p * 0.5) (delta * 3) in
         mkVec3 n n n).
Proof.
  intros Hmode Hd.
  assert (Hsame : forall camera group,
    map (updateParticle lookAtThenMultiply FOCUS (focusTargetRef s)
           camera group delta time) (particlesRef s)
    = map (updateParticle lookAtThenMultiply FOCUS None
             camera group delta time) (particlesRef s)).
  { intros camera group. apply map_ext_in. intros p Hin.
    apply update_not_focused. apply isFocusTarget_dangling; assumption. }
  assert (Htick : animate lookAtThenMultiply delta time s
    = with_focusTarget (focusTargetRef s)
        (animate lookAtThenMultiply delta time (with_focusTarget None s))).
  { unfold animate.
    cbn [rendererRef composerRef cameraRef mainGroupRef with_focusTarget
         modeRef mouseRotationRef focusTargetRef particlesRef].
    destruct (rendererRef s); [| now destruct s].
    destruct (composerRef s); [| now destruct s].
    destruct (cameraRef s) as [camera|]; [| now destruct s].
    destruct (mainGroupRef s) as [group|]; [| now destruct s].
    rewrite Hmode, Hsame. reflexivity. }
  split; [rewrite Htick; reflexivity|].
  split; [rewrite Htick; reflexivity|].
  intros i p Hready Hp.
  destruct (animate_particle lookAtThenMultiply delta time s i p Hready Hp)
    as (camera & group & _ & _ & Hnth).
  eexists. split; [exact Hnth|].
  rewrite Hmode, update_not_focused.
  - repeat split.
  - apply isFocusTarget_dangling; [exact Hd|].
    eapply nth_error_In; exact Hp.
Qed.

(** C8, amended.  On every tick in SCATTER mode every object's rotation is
    advanced by spin * delta about the x and the y axis; the angle about
    the z axis stays as it was.  The new rotation depends on the old one,
    the spin and delta only, not on the position blending. *)
Theorem C8_scatter_spins_x_and_y (delta time : R) (s : State) (i : nat)
  (p : ParticleData) :
  SceneReady s ->
  modeRef s = SCATTER ->
  nth_error (particlesRef s) i = Some p ->
  exists p',
    nth_error (particlesRef (animate lookAtThenMultiply delta time s)) i
    = Some p' /\
    rotation (mesh p')
    = mkVec3 (vx (rotation (mesh p)) + vx (rotationSpeed p) * delta)
             (vy (rotation (mesh p)) + vy (rotationSpeed p) * delta)
             (vz (rotation (mesh p))).
Proof.
  intros Hready Hmode Hp.
  destruct (animate_particle lookAtThenMultiply delta time s i p Hready Hp)
    as (camera & group & _ & _ & Hnth).
  eexists. split; [exact Hnth|]. rewrite Hmode. reflexivity.
Qed.

(** C10. After a tick every object's scale has three equal components: a
    tick of an initialised scene writes one scalar, computed from the x
    component, to all three axes in every mode, and a tick that returns
    early leaves the scales as they were. *)
Theorem C10_scale_isotropic (delta time : R) (s : State) :
  (SceneReady s ->
   Forall Isotropic
     (particlesRef (animate lookAtThenMultiply delta time s))) /\
  (Forall Isotropic (particlesRef s) ->
   Forall Isotropic
     (particlesRef (animate lookAtThenMultiply delta time s))).
Proof.
  assert (Hmap : forall camera group,
    Forall Isotropic
      (map (updateParticle lookAtThenMultiply (modeRef s) (focusTargetRef s)
              camera group delta time) (particlesRef s))).
  { intros camera group. apply Forall_map, Forall_forall. intros p _.
    apply update_isotropic. }
  split.
  - intros Hready.
    destruct (SceneReady_refs s Hready)
      as (camera & group & Hr & Hc & Hcam & Hg).
    rewrite (animate_ready lookAtThenMultiply delta time s camera group
               Hr Hc Hcam Hg).
    apply Hmap.
  - intros Hiso.
    destruct (animate_cases lookAtThenMultiply delta time s)
      as [Hsame | (camera & group & _ & Hps)].
    + rewrite Hsame. exact Hiso.
    + rewrite Hps. apply Hmap.
Qed.

End EngineClaims.

(** ** The render tick on the sample states *)

Lemma readyState_ready (ps : list ParticleData) (mode : TreeMode)
  (focus : option nat) : SceneReady (readyState ps mode focus).
Proof. repeat split; try reflexivity; discriminate. Qed.

Lemma Between_elim (x y z : R) : Between x y z -> x <= y -> x <= z <= y.
Proof.
  unfold Between, Rmin, Rmax. intros H Hxy.
  destruct (Rle_dec x y); lra.
Qed.

Lemma C3_smoothing_unclamped_witness :
  exists p',
    nth_error (particlesRef (animate keepAngles 0.25 0
                               (readyState [ornament] TREE None))) 0
    = Some p' /\
    Between 1 2 (vx (scale (mesh p'))) /\
    Between 0 1 (vx (position (mesh p'))).
Proof.
  destruct (C3_smoothing_unclamped keepAngles 0.25 0
              (readyState [ornament] TREE None) 0 ornament
              (readyState_ready _ _ _) eq_refl)
    as (camera & group & p' & _ & _ & Hnth & _ & _ & Hpos & Hscale & _).
  exists p'. split; [exact Hnth|]. split.
  - apply Hscale. lra.
  - apply Hpos. cbn. lra.
Defined.

(** C3 as stated fails: a tick of one second in TREE mode takes the sample
    ornament's scale from 1 past its target 2 to 4, and the x coordinate of
    its position from 0 past its target 1 to 1.5; the clamped step would
    have given 2 and 1. *)
Lemma C3_smoothing_counterexample :
  exists p',
    particlesRef (animate keepAngles 1 0 (readyState [ornament] TREE None))
    = [p'] /\
    vx (scale (mesh p'))
    <> clampedStep (vx (scale (mesh ornament))) (baseScale ornament) 3 1 /\
    ~ Between (vx (scale (mesh ornament))) (baseScale ornament)
        (vx (scale (mesh p'))) /\
    vx (position (mesh p'))
    <> clampedStep (vx (position (mesh ornament))) (vx (posTree ornament))
         1.5 1 /\
    ~ Between (vx (position (mesh ornament))) (vx (posTree ornament))
        (vx (position (mesh p'))).
Proof.
  eexists. split; [reflexivity|].
  cbn. unfold MathUtils_lerp, clampedStep, Rmin.
  repeat split.
  - destruct (Rle_dec 1 (3 * 1)); lra.
  - intros H. apply Between_elim in H; lra.
  - destruct (Rle_dec 1 (1.5 * 1)); lra.
  - intros H. apply Between_elim in H; lra.
Qed.

Lemma sample_dangling : Dangling (readyState [ornament] FOCUS (Some 99%nat)).
Proof. intros p [<- | []]. cbn. discriminate. Qed.

Lemma C7_dangling_focus_is_no_focus_witness :
  particlesRef (animate keepAngles 0.25 0
                  (readyState [ornament] FOCUS (Some 99%nat)))
  = particlesRef (animate keepAngles 0.25 0
                    (readyState [ornament] FOCUS None)) /\
  exists p',
    nth_error (particlesRef (animate keepAngles 0.25 0
                               (readyState [ornament] FOCUS (Some 99%nat)))) 0
    = Some p' /\
    rotation (mesh p') = rotation (mesh ornament).
Proof.
  destruct (C7_dangling_focus_is_no_focus keepAngles 0.25 0
              (readyState [ornament] FOCUS (Some 99%nat))
              eq_refl sample_dangling)
    as (Hps & _ & Hall).
  split; [exact Hps|].
  destruct (Hall 0%nat ornament (readyState_ready _ _ _) eq_refl)
    as (p' & Hnth & _ & Hrot & _).
  exists p'. split; [exact Hnth | exact Hrot].
Defined.

(** C7 as stated fails: with the dangling target 99 the FOCUS tick leaves
    the sample ornament elsewhere than a TREE tick from the same state
    would (scale 1 against 1.75 after a quarter of a second). *)
Lemma C7_dangling_focus_counterexample :
  Dangling (readyState [ornament] FOCUS (Some 99%nat)) /\
  particlesRef (animate keepAngles 0.25 0
                  (readyState [ornament] FOCUS (Some 99%nat)))
  <> particlesRef (animate keepAngles 0.25 0
                     (with_mode TREE
                        (readyState [ornament] FOCUS (Some 99%nat)))).
Proof.
  split; [exact sample_dangling|].
  intros H.
  apply (f_equal (map (fun p => vx (scale (mesh p))))) in H.
  cbn in H. unfold MathUtils_lerp in H. injection H as H. lra.
Qed.

Lemma C8_scatter_spins_x_and_y_witness :
  exists p',
    nth_error (particlesRef (animate keepAngles 0.25 0
                               (readyState [ornament] SCATTER None))) 0
    = Some p' /\
    rotation (mesh p') = mkVec3 (0 + 1 * 0.25) (0 + 1 * 0.25) 0.
Proof.
  exact (C8_scatter_spins_x_and_y keepAngles 0.25 0
           (readyState [ornament] SCATTER None) 0 ornament
           (readyState_ready _ _ _) eq_refl eq_refl).
Defined.

(** C8 as stated fails: a SCATTER tick of one second leaves the z angle of
    the sample ornament, whose spin about z is 1, at 0 instead of 1. *)
Lemma C8_scatter_spin_counterexample :
  exists p',
    particlesRef (animate keepAngles 1 0 (readyState [ornament] SCATTER None))
    = [p'] /\
    vz (rotation (mesh p'))
    <> vz (rotation (mesh ornament)) + vz (rotationSpeed ornament) * 1.
Proof.
  eexists. split; [reflexivity|]. cbn. lra.
Qed.

Lemma C10_scale_isotropic_witness :
  Forall Isotropic
    (particlesRef (animate keepAngles 0.25 0
                     (readyState [ornament; photoCard] FOCUS (Some 8%nat)))) /\
  Forall Isotropic
    (particlesRef (animate keepAngles 0.25 0
                     (with_mainGroup None
                        (readyState [ornament; photoCard] TREE None)))).
Proof.
  split.
  - apply (proj1 (C10_scale_isotropic keepAngles 0.25 0
                    (readyState [ornament; photoCard] FOCUS (Some 8%nat)))).
    apply readyState_ready.
  - apply (proj2 (C10_scale_isotropic keepAngles 0.25 0
                    (with_mainGroup None
                       (readyState [ornament; photoCard] TREE None)))).
    repeat constructor.
Defined.

(** ** Photo upload *)

Lemma addPhotoParticle_ready (u : PhotoDraws) (s : State) (mainGroup : Group) :
  mainGroupRef s = Some mainGroup ->
  exists p,
    type p = PHOTO /\ id (mesh p) = nextObjectId s /\
    addPhotoParticle u s
    = (Normal tt,
       mkState (particlesRef s ++ [p]) FOCUS (Some (nextObjectId s))
         (mouseRotationRef s) (cameraRef s) (rendererRef s) (composerRef s)
         (Some (mkGroup (groupRotation mainGroup)
                        (children mainGroup ++ [nextObjectId s])))
         FOCUS (gestureHint s) (nextObjectId s + 3)).
Proof.
  intros Hg. eexists. split; [| split].
  3: { unfold addPhotoParticle, bind, gets. cbn beta iota. rewrite Hg.
       reflexivity. }
  - reflexivity.
  - reflexivity.
Qed.

(** Before [initThree] has set the main group an upload changes nothing. *)
Lemma addPhotoParticle_not_ready (u : PhotoDraws) (s : State) :
  mainGroupRef s = None -> addPhotoParticle u s = (Normal tt, s).
Proof.
  intros Hg. unfold addPhotoParticle, bind, gets. cbn beta iota.
  rewrite Hg. reflexivity.
Qed.

(** The new object is none of the old ones, and ids stay below the next. *)
Lemma addPhotoParticle_fresh (u : PhotoDraws) (s : State) :
  mainGroupRef s <> None ->
  IdsBelowNext s ->
  IdsBelowNext (snd (addPhotoParticle u s)) /\
  forall q, In q (particlesRef s) -> id (mesh q) <> nextObjectId s.
Proof.
  intros Hg Hids.
  destruct (mainGroupRef s) as [mainGroup|] eqn:E; [| congruence].
  destruct (addPhotoParticle_ready u s mainGroup E) as (p & _ & Hid & Heq).
  rewrite Heq. split.
  - intros q Hin. cbn in Hin |- *. apply in_app_or in Hin.
    destruct Hin as [Hin | [<- | []]].
    + specialize (Hids q Hin). lia.
    + lia.
  - intros q Hin. specialize (Hids q Hin). lia.
Qed.

(** C9. An upload into an initialised scene appends one new photo object
    to the registry, sets the mode (the ref and the mode shown by [App]) to
    FOCUS and makes the new object the focus target, whatever the mode and
    the focus target were before. *)
Theorem C9_upload_forces_focus (u : PhotoDraws) (s : State) :
  mainGroupRef s <> None ->
  exists p,
    fst (addPhotoParticle u s) = Normal tt /\
    particlesRef (snd (addPhotoParticle u s)) = particlesRef s ++ [p] /\
    type p = PHOTO /\
    id (mesh p) = nextObjectId s /\
    modeRef (snd (addPhotoParticle u s)) = FOCUS /\
    currentMode (snd (addPhotoParticle u s)) = FOCUS /\
    focusTargetRef (snd (addPhotoParticle u s)) = Some (id (mesh p)).
Proof.
  intros Hg.
  destruct (mainGroupRef s) as [mainGroup|] eqn:E; [| congruence].
  destruct (addPhotoParticle_ready u s mainGroup E) as (p & Hty & Hid & Heq).
  exists p. rewrite Heq, Hid. cbn. auto 10.
Qed.

Lemma C9_upload_forces_focus_witness :
  exists p,
    particlesRef (snd (addPhotoParticle (mkPhotoDraws 0 0.5 0.5 0 0 0 0)
                         (readyState [ornament; photoCard] SCATTER
                            (Some 8%nat))))
    = [ornament; photoCard; p] /\
    focusTargetRef (snd (addPhotoParticle (mkPhotoDraws 0 0.5 0.5 0 0 0 0)
                           (readyState [ornament; photoCard] SCATTER
                              (Some 8%nat))))
    = Some (id (mesh p)) /\
    id (mesh p) = 9%nat.
Proof.
  destruct (C9_upload_forces_focus (mkPhotoDraws 0 0.5 0.5 0 0 0 0)
              (readyState [ornament; photoCard] SCATTER (Some 8%nat)))
    as (p & _ & Hps & _ & Hid & _ & _ & Hfocus).
  - discriminate.
  - exists p. split; [exact Hps|]. split; [exact Hfocus | exact Hid].
Defined.

(** ** An initialised scene stays initialised

    [initThree] sets the four refs once; no handler and no tick clears
    them, so every upload and every gesture after it meets them set. *)

Lemma pickFocusTarget_ready (u : R) (s : State) :
  SceneReady s -> SceneReady (snd (pickFocusTarget u s)).
Proof.
  unfold pickFocusTarget, bind, gets. cbn beta iota.
  destruct (0 <? _)%nat; destruct (jsIndex _ _); cbn; auto.
Qed.

Lemma switchMode_ready (u d o : R) (s : State) :
  SceneReady s -> SceneReady (snd (switchMode u d o s)).
Proof.
  intros Hready. unfold switchMode, bind, gets. cbn beta iota.
  destruct (Rltb d PINCH_THRESHOLD).
  - destruct (negb (TreeMode_eqb (modeRef s) FOCUS)); [| exact Hready].
    cbn beta iota. apply pickFocusTarget_ready. exact Hready.
  - destruct (Rltb o FIST_THRESHOLD).
    + destruct (negb (TreeMode_eqb (modeRef s) TREE)); exact Hready.
    + destruct (Rgtb o OPEN_THRESHOLD); [| exact Hready].
      destruct (negb (TreeMode_eqb (modeRef s) SCATTER)); exact Hready.
Qed.

Lemma handleGestures_ready (u : R) (result : HandLandmarkerResult)
  (s : State) :
  SceneReady s -> SceneReady (snd (handleGestures u result s)).
Proof.
  intros Hready. unfold handleGestures.
  destruct (landmarks result) as [[|lm rest]|]; try exact Hready.
  unfold bind.
  destruct (pinchDist lm); [| exact Hready].
  destruct (avgDistToWrist lm); [| exact Hready].
  destruct (handXY lm); [| exact Hready].
  cbn beta iota. apply switchMode_ready. exact Hready.
Qed.

Lemma animate_stays_ready
  (lookAtThenMultiply : Vec3 -> Group -> Quaternion -> Object3D -> Vec3)
  (delta time : R) (s : State) :
  SceneReady s -> SceneReady (animate lookAtThenMultiply delta time s).
Proof.
  intros Hready.
  destruct (SceneReady_refs s Hready) as (camera & group & Hr & Hc & Hcam & Hg).
  rewrite (animate_ready lookAtThenMultiply delta time s camera group
             Hr Hc Hcam Hg).
  destruct Hready as (? & ? & ? & ?).
  repeat split; cbn; try assumption. discriminate.
Qed.

Lemma addPhotoParticle_stays_ready (u : PhotoDraws) (s : State) :
  SceneReady s -> SceneReady (snd (addPhotoParticle u s)).
Proof.
  intros Hready.
  destruct (SceneReady_refs s Hready) as (camera & group & Hr & Hc & Hcam & Hg).
  destruct (addPhotoParticle_ready u s group Hg) as (p & _ & _ & Heq).
  rewrite Heq. destruct Hready as (? & ? & ? & ?).
  repeat split; cbn; try assumption. discriminate.
Qed.

(** * Further properties of the code *)

(** ** The classifier: the other branches *)

Lemma switchMode_fist (u d o : R) (s : State) :
  PINCH_THRESHOLD <= d -> o < FIST_THRESHOLD ->
  switchMode u d o s =
  if TreeMode_eqb (modeRef s) TREE then (Normal tt, s)
  else (Normal tt,
        with_focusTarget None
          (with_gestureHint "Restoring Tree"
             (with_currentMode TREE (with_mode TREE s)))).
Proof.
  intros Hd Ho. unfold switchMode, bind, gets. cbn beta iota.
  rewrite (Rltb_false _ _ Hd), (Rltb_true _ _ Ho).
  destruct (TreeMode_eqb (modeRef s) TREE); reflexivity.
Qed.

Lemma switchMode_open (u d o : R) (s : State) :
  PINCH_THRESHOLD <= d -> OPEN_THRESHOLD < o ->
  switchMode u d o s =
  if TreeMode_eqb (modeRef s) SCATTER then (Normal tt, s)
  else (Normal tt,
        with_focusTarget None
          (with_gestureHint "Magic Scatter"
             (with_currentMode SCATTER (with_mode SCATTER s)))).
Proof.
  intros Hd Ho. unfold switchMode, bind, gets, Rgtb. cbn beta iota.
  assert (Hfist : FIST_THRESHOLD <= o)
    by (unfold FIST_THRESHOLD, OPEN_THRESHOLD in *; lra).
  rewrite (Rltb_false _ _ Hd), (Rltb_false _ _ Hfist), (Rltb_true _ _ Ho).
  destruct (TreeMode_eqb (modeRef s) SCATTER); reflexivity.
Qed.

Lemma pickFocusTarget_pointer (u : R) (s : State) :
  mouseRotationRef (snd (pickFocusTarget u s)) = mouseRotationRef s.
Proof.
  unfold pickFocusTarget, bind, gets. cbn beta iota.
  destruct (0 <? _)%nat; destruct (jsIndex _ _); reflexivity.
Qed.

Lemma switchMode_pointer (u d o : R) (s : State) :
  mouseRotationRef (snd (switchMode u d o s)) = mouseRotationRef s.
Proof.
  unfold switchMode, bind, gets. cbn beta iota.
  destruct (Rltb d PINCH_THRESHOLD).
  - destruct (negb (TreeMode_eqb (modeRef s) FOCUS)); [| reflexivity].
    exact (pickFocusTarget_pointer u
             (with_gestureHint "Inspecting Memory"
                (with_currentMode FOCUS (with_mode FOCUS s)))).
  - destruct (Rltb o FIST_THRESHOLD).
    + destruct (negb (TreeMode_eqb (modeRef s) TREE)); reflexivity.
    + destruct (Rgtb o OPEN_THRESHOLD); [| reflexivity].
      destruct (negb (TreeMode_eqb (modeRef s) SCATTER)); reflexivity.
Qed.

Lemma fistFrame_pinch : pinchDist fistFrame = Some 0.1.
Proof. cbn. f_equal. apply hypot_eq; lra. Qed.

Lemma fistFrame_openness : avgDistToWrist fistFrame = Some 0.2.
Proof.
  cbn. f_equal.
  replace (hypot (0.5 - 0.5) (0.5 - 0.7)) with 0.2
    by (symmetry; apply hypot_eq; lra).
  lra.
Qed.

Lemma openFrame_pinch : pinchDist openFrame = Some 0.1.
Proof. cbn. f_equal. apply hypot_eq; lra. Qed.

Lemma openFrame_openness : avgDistToWrist openFrame = Some 0.4.
Proof.
  cbn. f_equal.
  replace (hypot (0.5 - 0.5) (0.5 - 0.9)) with 0.4
    by (symmetry; apply hypot_eq; lra).
  lra.
Qed.

(** X1. A hand that is not pinching and whose openness is below 0.25 puts
    the engine in TREE mode.  When the mode was another one, [App] is told
    and the focus target is cleared; when it was TREE already, nothing but
    the pointer is written. *)
Theorem fist_restores_tree (u : R) (result : HandLandmarkerResult)
  (lm : list NormalizedLandmark) (rest : list (list NormalizedLandmark))
  (d o : R) (s : State) :
  landmarks result = Some (lm :: rest) ->
  HandFrame lm ->
  pinchDist lm = Some d ->
  avgDistToWrist lm = Some o ->
  0.05 <= d ->
  o < 0.25 ->
  let s' := snd (handleGestures u result s) in
  fst (handleGestures u result s) = Normal tt /\
  modeRef s' = TREE /\
  (modeRef s <> TREE -> currentMode s' = TREE /\ focusTargetRef s' = None) /\
  (modeRef s = TREE ->
   currentMode s' = currentMode s /\ focusTargetRef s' = focusTargetRef s /\
   gestureHint s' = gestureHint s).
Proof.
  intros Hl Hf Hd Ho Hpinch Hfist.
  destruct (frame_features lm Hf) as (d' & o' & h & _ & _ & Hh).
  cbn zeta.
  rewrite (handleGestures_frame u result lm rest d o h s Hl Hd Ho Hh).
  rewrite switchMode_fist by assumption.
  cbn [modeRef with_mouseRotation].
  destruct (TreeMode_eqb (modeRef s) TREE) eqn:E.
  - apply TreeMode_eqb_eq in E. cbn.
    split; [reflexivity|]. split; [exact E|].
    split; [intros Hn; contradiction | intros _; repeat split].
  - cbn. split; [reflexivity|]. split; [reflexivity|].
    split; [intros _; split; reflexivity|].
    intros Hm. rewrite Hm in E. discriminate.
Qed.

Lemma fist_restores_tree_witness :
  modeRef (snd (handleGestures 0 (resultOf fistFrame)
                  (readyState [ornament; photoCard] FOCUS (Some 8%nat))))
  = TREE /\
  focusTargetRef (snd (handleGestures 0 (resultOf fistFrame)
                         (readyState [ornament; photoCard] FOCUS
                            (Some 8%nat))))
  = None.
Proof.
  destruct (fist_restores_tree 0 (resultOf fistFrame) fistFrame [] 0.1 0.2
              (readyState [ornament; photoCard] FOCUS (Some 8%nat))
              eq_refl eq_refl fistFrame_pinch fistFrame_openness)
    as (_ & Hmode & Hleave & _); [lra | lra |].
  split; [exact Hmode|].
  apply Hleave. cbn. discriminate.
Defined.

(** X2. A hand that is not pinching and whose openness is above 0.35 puts
    the engine in SCATTER mode.  When the mode was another one, [App] is
    told and the focus target is cleared; when it was SCATTER already,
    nothing but the pointer is written. *)
Theorem open_hand_scatters (u : R) (result : HandLandmarkerResult)
  (lm : list NormalizedLandmark) (rest : list (list NormalizedLandmark))
  (d o : R) (s : State) :
  landmarks result = Some (lm :: rest) ->
  HandFrame lm ->
  pinchDist lm = Some d ->
  avgDistToWrist lm = Some o ->
  0.05 <= d ->
  0.35 < o ->
  let s' := snd (handleGestures u result s) in
  fst (handleGestures u result s) = Normal tt /\
  modeRef s' = SCATTER /\
  (modeRef s <> SCATTER ->
   currentMode s' = SCATTER /\ focusTargetRef s' = None) /\
  (modeRef s = SCATTER ->
   currentMode s' = currentMode s /\ focusTargetRef s' = focusTargetRef s /\
   gestureHint s' = gestureHint s).
Proof.
  intros Hl Hf Hd Ho Hpinch Hopen.
  destruct (frame_features lm Hf) as (d' & o' & h & _ & _ & Hh).
  cbn zeta.
  rewrite (handleGestures_frame u result lm rest d o h s Hl Hd Ho Hh).
  rewrite switchMode_open by assumption.
  cbn [modeRef with_mouseRotation].
  destruct (TreeMode_eqb (modeRef s) SCATTER) eqn:E.
  - apply TreeMode_eqb_eq in E. cbn.
    split; [reflexivity|]. split; [exact E|].
    split; [intros Hn; contradiction | intros _; repeat split].
  - cbn. split; [reflexivity|]. split; [reflexivity|].
    split; [intros _; split; reflexivity|].
    intros Hm. rewrite Hm in E. discriminate.
Qed.

Lemma open_hand_scatters_witness :
  modeRef (snd (handleGestures 0 (resultOf openFrame)
                  (readyState [ornament; photoCard] FOCUS (Some 8%nat))))
  = SCATTER /\
  focusTargetRef (snd (handleGestures 0 (resultOf openFrame)
                         (readyState [ornament; photoCard] FOCUS
                            (Some 8%nat))))
  = None.
Proof.
  destruct (open_hand_scatters 0 (resultOf openFrame) openFrame [] 0.1 0.4
              (readyState [ornament; photoCard] FOCUS (Some 8%nat))
              eq_refl eq_refl openFrame_pinch openFrame_openness)
    as (_ & Hmode & Hleave & _); [lra | lra |].
  split; [exact Hmode|].
  apply Hleave. cbn. discriminate.
Defined.

(** X3. Whatever the gesture and whether or not the handler throws later,
    a hand of 21 landmarks sets the pointer to the middle knuckle's offset
    from the image centre, mirrored and doubled; for a knuckle inside the
    image both components lie between -1 and 1. *)
Theorem pointer_follows_knuckle (u : R) (result : HandLandmarkerResult)
  (lm : list NormalizedLandmark) (rest : list (list NormalizedLandmark))
  (k : NormalizedLandmark) (s : State) :
  landmarks result = Some (lm :: rest) ->
  HandFrame lm ->
  nth_error lm 9 = Some k ->
  let pointer := mouseRotationRef (snd (handleGestures u result s)) in
  pointer = mkVec2 ((lx k - 0.5) * -2) ((ly k - 0.5) * -2) /\
  (0 <= lx k <= 1 -> 0 <= ly k <= 1 ->
   -1 <= px pointer <= 1 /\ -1 <= py pointer <= 1).
Proof.
  intros Hl Hf Hk.
  destruct (frame_features lm Hf) as (d & o & h & Hd & Ho & Hh).
  cbn zeta.
  rewrite (handleGestures_frame u result lm rest d o h s Hl Hd Ho Hh).
  rewrite switchMode_pointer. cbn [mouseRotationRef with_mouseRotation].
  unfold handXY, middleKnuckle in Hh. rewrite Hk in Hh.
  injection Hh as <-. split; [reflexivity|].
  cbn. intros Hx Hy. lra.
Qed.

Lemma pointer_follows_knuckle_witness :
  mouseRotationRef (snd (handleGestures 0 (resultOf pinchFrame) blankState))
  = mkVec2 ((0.5 - 0.5) * -2) ((0.7 - 0.5) * -2).
Proof.
  exact (proj1 (pointer_follows_knuckle 0 (resultOf pinchFrame) pinchFrame []
                  (landmarkAt 0.5 0.7) blankState eq_refl eq_refl eq_refl)).
Defined.

(** X4. A hand with fewer than 21 landmarks makes the handler throw a
    TypeError before it has written anything: the state is the one before,
    pointer and hint included. *)
Theorem short_frame_throws_unchanged (u : R) (result : HandLandmarkerResult)
  (lm : list NormalizedLandmark) (rest : list (list NormalizedLandmark))
  (s : State) :
  landmarks result = Some (lm :: rest) ->
  (length lm < 21)%nat ->
  handleGestures u result s = (Throw TypeError, s).
Proof.
  intros Hl Hlen. unfold handleGestures. rewrite Hl. unfold bind.
  destruct (pinchDist lm) as [d|]; [| reflexivity].
  assert (Havg : avgDistToWrist lm = None).
  { unfold avgDistToWrist. cbn [fold_left].
    assert (Hp : pinkyTip lm = None)
      by (unfold pinkyTip; apply nth_error_None; lia).
    rewrite Hp. unfold addDistToWrist at 1.
    destruct (addDistToWrist _ _ _); reflexivity. }
  cbn. rewrite Havg. reflexivity.
Qed.

Lemma short_frame_throws_unchanged_witness :
  handleGestures 0 (resultOf [landmarkAt 0.5 0.5])
    (readyState [ornament] SCATTER None)
  = (Throw TypeError, readyState [ornament] SCATTER None).
Proof.
  apply (short_frame_throws_unchanged 0 (resultOf [landmarkAt 0.5 0.5])
           [landmarkAt 0.5 0.5] []).
  - reflexivity.
  - cbn. lia.
Defined.

(** ** Entering FOCUS on a populated registry *)

Lemma switchMode_normal (u d o : R) (s : State) :
  InUnit u -> particlesRef s <> [] -> fst (switchMode u d o s) = Normal tt.
Proof.
  intros Hu Hne. unfold switchMode, bind, gets. cbn beta iota.
  destruct (Rltb d PINCH_THRESHOLD).
  - destruct (negb (TreeMode_eqb (modeRef s) FOCUS)); [| reflexivity].
    exact (pickFocusTarget_normal u
             (with_gestureHint "Inspecting Memory"
                (with_currentMode FOCUS (with_mode FOCUS s))) Hu Hne).
  - destruct (Rltb o FIST_THRESHOLD).
    + destruct (negb (TreeMode_eqb (modeRef s) TREE)); reflexivity.
    + destruct (Rgtb o OPEN_THRESHOLD); [| reflexivity].
      destruct (negb (TreeMode_eqb (modeRef s) SCATTER)); reflexivity.
Qed.

(** What [pickFocusTarget] selects on a registry that is not empty. *)
Lemma pickFocusTarget_selects (u : R) (s : State) :
  let photos :=
    filter (fun p => ParticleType_eqb (type p) PHOTO) (particlesRef s) in
  InUnit u -> particlesRef s <> [] ->
  exists p,
    pickFocusTarget u s
    = (Normal tt, with_focusTarget (Some (id (mesh p))) s) /\
    In p (particlesRef s) /\
    (photos <> [] ->
     nth_error photos (Z.to_nat (Zfloor (u * INR (length photos)))) = Some p /\
     type p = PHOTO) /\
    (photos = [] -> nth_error (particlesRef s) 0 = Some p).
Proof.
  intros photos Hu Hne.
  destruct photos as [|q qs] eqn:E.
  - destruct (particlesRef s) as [|p ps] eqn:Hps; [congruence|].
    exists p. split; [| split; [| split]].
    + apply (pickFocusTarget_fallback u s p ps Hps).
      rewrite Hps. exact E.
    + now left.
    + intros Hcontra. congruence.
    + reflexivity.
  - destruct (pickFocusTarget_photo u s Hu) as (p & Hnth & Hin & Hty & Heq).
    + fold photos. rewrite E. discriminate.
    + exists p. split; [exact Heq|]. split; [exact Hin|]. split.
      * intros _. fold photos in Hnth. rewrite E in Hnth. auto.
      * discriminate.
Qed.

(** C6, amended.  On every transition into FOCUS made on a registry that
    holds at least one object, the classifier ends normally and sets the
    focus target to an object of the registry: when photo cards exist, to
    the photo card at index floor(u * n) of the n photo cards, an index
    that equals i exactly for the draws u between i / n (included) and
    (i + 1) / n (excluded), so that the choice is uniform; when none
    exists, to the first object of the registry.  On such a registry the
    selection never reads a property of null or undefined. *)
Theorem C6_focus_selection_on_populated_registry (u : R)
  (result : HandLandmarkerResult) (lm : list NormalizedLandmark)
  (rest : list (list NormalizedLandmark)) (d : R) (s : State) :
  landmarks result = Some (lm :: rest) ->
  HandFrame lm ->
  pinchDist lm = Some d ->
  d < PINCH_THRESHOLD ->
  modeRef s <> FOCUS ->
  0 <= u < 1 ->
  particlesRef s <> [] ->
  let s' := snd (handleGestures u result s) in
  let photos :=
    filter (fun p => ParticleType_eqb (type p) PHOTO) (particlesRef s) in
  fst (handleGestures u result s) = Normal tt /\
  modeRef s' = FOCUS /\
  exists p,
    focusTargetRef s' = Some (id (mesh p)) /\
    In p (particlesRef s) /\
    (photos <> [] ->
     type p = PHOTO /\
     nth_error photos (Z.to_nat (Zfloor (u * INR (length photos)))) = Some p /\
     forall i, (i < length photos)%nat ->
       (Zfloor (u * INR (length photos)) = Z.of_nat i
        <-> INR i / INR (length photos) <= u
            < (INR i + 1) / INR (length photos))) /\
    (photos = [] -> nth_error (particlesRef s) 0 = Some p).
Proof.
  intros Hl Hf Hd Hlt Hmode Hu Hne.
  destruct (frame_features lm Hf) as (d' & o & h & Hd' & Ho & Hh).
  rewrite Hd in Hd'. injection Hd' as <-.
  cbn zeta.
  rewrite (handleGestures_frame u result lm rest d o h s Hl Hd Ho Hh).
  rewrite switchMode_pinch by exact Hlt.
  cbn [modeRef with_mouseRotation].
  destruct (TreeMode_eqb (modeRef s) FOCUS) eqn:E;
    [apply TreeMode_eqb_eq in E; contradiction|].
  destruct (pickFocusTarget_selects u
              (with_gestureHint "Inspecting Memory"
                 (with_currentMode FOCUS
                    (with_mode FOCUS (with_mouseRotation h s)))) Hu Hne)
    as (p & Heq & Hin & Hphoto & Hfirst).
  rewrite Heq. cbn [fst snd].
  split; [reflexivity|]. split; [reflexivity|].
  exists p. split; [reflexivity|]. split; [exact Hin|].
  split; [| exact Hfirst].
  intros Hsome. destruct (Hphoto Hsome) as [Hnth Hty].
  split; [exact Hty|]. split; [exact Hnth|].
  intros i Hi. apply random_index_uniform; [exact Hu | exact Hi].
Qed.

Lemma C6_focus_selection_on_populated_registry_witness :
  fst (handleGestures 0.5 (resultOf pinchFrame)
         (readyState [ornament; photoCard] TREE None)) = Normal tt /\
  exists p,
    focusTargetRef (snd (handleGestures 0.5 (resultOf pinchFrame)
                           (readyState [ornament; photoCard] TREE None)))
    = Some (id (mesh p)) /\
    type p = PHOTO.
Proof.
  destruct (C6_focus_selection_on_populated_registry 0.5
              (resultOf pinchFrame) pinchFrame []
              (hypot (0.5 - 0.5) (0.53 - 0.5))
              (readyState [ornament; photoCard] TREE None)
              eq_refl eq_refl eq_refl)
    as (Hnormal & _ & p & Hfocus & _ & Hphoto & _).
  - apply hypot_lt; unfold PINCH_THRESHOLD; lra.
  - discriminate.
  - lra.
  - discriminate.
  - split; [exact Hnormal|]. exists p. split; [exact Hfocus|].
    destruct Hphoto as [Hty _]; [discriminate | exact Hty].
Defined.

(** X5. On a registry that is not empty, a pinching hand met outside FOCUS
    enters FOCUS, tells [App], and makes an object of the registry the
    focus target: the photo card at index floor(u * number of photo cards)
    when there is a photo card, the first particle otherwise. *)
Theorem entering_focus_selects (u : R) (result : HandLandmarkerResult)
  (lm : list NormalizedLandmark) (rest : list (list NormalizedLandmark))
  (d : R) (s : State) :
  landmarks result = Some (lm :: rest) ->
  HandFrame lm ->
  pinchDist lm = Some d ->
  d < 0.05 ->
  modeRef s <> FOCUS ->
  InUnit u ->
  particlesRef s <> [] ->
  let s' := snd (handleGestures u result s) in
  let photos :=
    filter (fun p => ParticleType_eqb (type p) PHOTO) (particlesRef s) in
  fst (handleGestures u result s) = Normal tt /\
  modeRef s' = FOCUS /\ currentMode s' = FOCUS /\
  exists p,
    focusTargetRef s' = Some (id (mesh p)) /\
    In p (particlesRef s) /\
    (photos <> [] ->
     nth_error photos (Z.to_nat (Zfloor (u * INR (length photos)))) = Some p /\
     type p = PHOTO) /\
    (photos = [] -> nth_error (particlesRef s) 0 = Some p).
Proof.
  intros Hl Hf Hd Hlt Hmode Hu Hne.
  destruct (frame_features lm Hf) as (d' & o & h & Hd' & Ho & Hh).
  rewrite Hd in Hd'. injection Hd' as <-.
  cbn zeta.
  rewrite (handleGestures_frame u result lm rest d o h s Hl Hd Ho Hh).
  rewrite switchMode_pinch by exact Hlt.
  cbn [modeRef with_mouseRotation].
  destruct (TreeMode_eqb (modeRef s) FOCUS) eqn:E;
    [apply TreeMode_eqb_eq in E; contradiction|].
  destruct (pickFocusTarget_selects u
              (with_gestureHint "Inspecting Memory"
                 (with_currentMode FOCUS
                    (with_mode FOCUS (with_mouseRotation h s)))) Hu Hne)
    as (p & Heq & Hin & Hphoto & Hfirst).
  rewrite Heq. cbn [fst snd].
  split; [reflexivity|]. split; [reflexivity|]. split; [reflexivity|].
  exists p. split; [reflexivity|]. split; [exact Hin|].
  split; [exact Hphoto | exact Hfirst].
Qed.

Lemma entering_focus_selects_witness :
  focusTargetRef (snd (handleGestures 0.5 (resultOf pinchFrame)
                         (readyState [ornament; photoCard] TREE None)))
  = Some 8%nat.
Proof.
  destruct (entering_focus_selects 0.5 (resultOf pinchFrame) pinchFrame []
              (hypot (0.5 - 0.5) (0.53 - 0.5))
              (readyState [ornament; photoCard] TREE None)
              eq_refl eq_refl eq_refl)
    as (_ & _ & _ & p & Hfocus & _ & Hphoto & _).
  - apply hypot_lt; lra.
  - discriminate.
  - unfold InUnit. lra.
  - discriminate.
  - rewrite Hfocus.
    destruct Hphoto as [Hnth _]; [discriminate|].
    cbn in Hnth.
    replace (Zfloor (0.5 * 1)) with 0%Z in Hnth
      by (symmetry; apply Zfloor_eq; cbn; lra).
    cbn in Hnth. injection Hnth as <-. reflexivity.
Defined.

(** X6. Each photo card has the same share of the draws: of [n] photo
    cards, the one at index [i] becomes the focus target exactly for the
    draws between i / n (included) and (i + 1) / n (excluded). *)
Theorem photo_shares_are_equal (u : R) (s : State) (i : nat)
  (p : ParticleData) :
  let photos :=
    filter (fun q => ParticleType_eqb (type q) PHOTO) (particlesRef s) in
  nth_error photos i = Some p ->
  INR i / INR (length photos) <= u < (INR i + 1) / INR (length photos) ->
  pickFocusTarget u s = (Normal tt, with_focusTarget (Some (id (mesh p))) s).
Proof.
  intros photos Hnth Hu.
  assert (Hi : (i < length photos)%nat)
    by (apply nth_error_Some; congruence).
  assert (HnR : 0 < INR (length photos)) by (apply lt_0_INR; lia).
  assert (Hfloor : Zfloor (u * INR (length photos)) = Z.of_nat i).
  { apply Zfloor_eq. rewrite <- INR_IZR_INZ.
    assert (Ei : INR i / INR (length photos) * INR (length photos) = INR i)
      by (field; lra).
    assert (Ei1 : (INR i + 1) / INR (length photos) * INR (length photos)
                  = INR i + 1) by (field; lra).
    destruct Hu as [Hlo Hhi].
    apply (Rmult_le_compat_r (INR (length photos))) in Hlo; [| lra].
    apply (Rmult_lt_compat_r (INR (length photos))) in Hhi; [| exact HnR].
    lra. }
  unfold pickFocusTarget, bind, gets. cbn beta iota. fold photos.
  assert (Hlt : (0 <? length photos)%nat = true) by (apply Nat.ltb_lt; lia).
  rewrite Hlt, Hfloor.
  unfold jsIndex.
  destruct (Z.of_nat i <? 0)%Z eqn:E; [apply Z.ltb_lt in E; lia|].
  rewrite Nat2Z.id, Hnth. reflexivity.
Qed.

Lemma photo_shares_are_equal_witness :
  pickFocusTarget 0.75 (readyState [photoCard; ornament; photoCard] TREE None)
  = (Normal tt,
     with_focusTarget (Some 8%nat)
       (readyState [photoCard; ornament; photoCard] TREE None)).
Proof.
  apply (photo_shares_are_equal 0.75
           (readyState [photoCard; ornament; photoCard] TREE None)
           1 photoCard).
  - reflexivity.
  - cbn. lra.
Defined.

Lemma populated_registry_never_throws_core (u : R)
  (result : HandLandmarkerResult) (s : State) :
  particlesRef s <> [] ->
  InUnit u ->
  match landmarks result with
  | Some (lm :: _) => HandFrame lm
  | _ => True
  end ->
  fst (handleGestures u result s) = Normal tt.
Proof.
  intros Hne Hu Hframe.
  destruct (landmarks result) as [[|lm rest]|] eqn:Hl;
    try (unfold handleGestures; rewrite Hl; reflexivity).
  destruct (frame_features lm Hframe) as (d & o & h & Hd & Ho & Hh).
  rewrite (handleGestures_frame u result lm rest d o h s Hl Hd Ho Hh).
  exact (switchMode_normal u d o (with_mouseRotation h s) Hu Hne).
Qed.

(** X7. On a registry that is not empty the handler ends normally on every
    detection result that carries no hand or a first hand of 21 landmarks,
    as long as [Math.random()] keeps its promise. *)
Theorem populated_registry_never_throws (u : R)
  (result : HandLandmarkerResult) (s : State) :
  particlesRef s <> [] ->
  InUnit u ->
  match landmarks result with
  | Some (lm :: _) => HandFrame lm
  | _ => True
  end ->
  fst (handleGestures u result s) = Normal tt.
Proof. exact (populated_registry_never_throws_core u result s). Qed.

Lemma populated_registry_never_throws_witness :
  fst (handleGestures 0.5 (resultOf pinchFrame)
         (readyState [ornament] TREE None)) = Normal tt.
Proof.
  apply populated_registry_never_throws.
  - discriminate.
  - unfold InUnit. lra.
  - reflexivity.
Defined.

(** ** The coherence of mode, focus target and registry *)

Lemma switchMode_coherent (u d o : R) (s : State) :
  InUnit u -> Coherent s -> Coherent (snd (switchMode u d o s)).
Proof.
  intros Hu Hco. pose proof Hco as (Hne & Hshown & Hfocus & Hvalid).
  destruct (Rlt_dec d PINCH_THRESHOLD) as [Hd | Hd].
  - rewrite switchMode_pinch by exact Hd.
    destruct (TreeMode_eqb (modeRef s) FOCUS); [exact Hco|].
    destruct (pickFocusTarget_selects u
                (with_gestureHint "Inspecting Memory"
                   (with_currentMode FOCUS (with_mode FOCUS s))) Hu Hne)
      as (p & Heq & Hin & _).
    rewrite Heq. unfold Coherent, FocusValid. cbn.
    split; [exact Hne|]. split; [reflexivity|].
    split; [split; [reflexivity | discriminate]|].
    exists p. split; [exact Hin | reflexivity].
  - apply Rnot_lt_le in Hd.
    destruct (Rlt_dec o FIST_THRESHOLD) as [Ho | Ho].
    + rewrite switchMode_fist by assumption.
      destruct (TreeMode_eqb (modeRef s) TREE); [exact Hco|].
      unfold Coherent, FocusValid. cbn.
      split; [exact Hne|]. split; [reflexivity|].
      split; [split; [congruence | discriminate] | exact I].
    + apply Rnot_lt_le in Ho.
      destruct (Rlt_dec OPEN_THRESHOLD o) as [Hopen | Hopen].
      * rewrite switchMode_open by assumption.
        destruct (TreeMode_eqb (modeRef s) SCATTER); [exact Hco|].
        unfold Coherent, FocusValid. cbn.
        split; [exact Hne|]. split; [reflexivity|].
        split; [split; [congruence | discriminate] | exact I].
      * apply Rnot_lt_le in Hopen.
        rewrite switchMode_dead_zone by auto. exact Hco.
Qed.

Lemma handleGestures_keeps_coherent_core (u : R)
  (result : HandLandmarkerResult) (s : State) :
  Coherent s ->
  InUnit u ->
  match landmarks result with
  | Some (lm :: _) => HandFrame lm
  | _ => True
  end ->
  fst (handleGestures u result s) = Normal tt /\
  Coherent (snd (handleGestures u result s)).
Proof.
  intros Hco Hu Hframe. split.
  - apply populated_registry_never_throws_core;
      [apply Hco | exact Hu | exact Hframe].
  - destruct (landmarks result) as [[|lm rest]|] eqn:Hl;
      try (unfold handleGestures; rewrite Hl; exact Hco).
    destruct (frame_features lm Hframe) as (d & o & h & Hd & Ho & Hh).
    rewrite (handleGestures_frame u result lm rest d o h s Hl Hd Ho Hh).
    apply switchMode_coherent; [exact Hu | exact Hco].
Qed.

(** X8. Once the registry is populated the handler keeps the state
    coherent and ends normally: afterwards the mode [App] shows is still
    the mode of the engine, a focus target is held exactly in FOCUS mode,
    and it is an object of the registry (never a dangling one). *)
Theorem handleGestures_keeps_coherent (u : R)
  (result : HandLandmarkerResult) (s : State) :
  Coherent s ->
  InUnit u ->
  match landmarks result with
  | Some (lm :: _) => HandFrame lm
  | _ => True
  end ->
  fst (handleGestures u result s) = Normal tt /\
  Coherent (snd (handleGestures u result s)).
Proof. exact (handleGestures_keeps_coherent_core u result s). Qed.

Lemma sample_coherent :
  Coherent (readyState [ornament; photoCard] FOCUS (Some 8%nat)).
Proof.
  unfold Coherent, FocusValid. cbn.
  split; [discriminate|]. split; [reflexivity|].
  split; [split; [reflexivity | discriminate]|].
  exists photoCard. split; [right; left; reflexivity | reflexivity].
Qed.

Lemma handleGestures_keeps_coherent_witness :
  Coherent (snd (handleGestures 0.5 (resultOf fistFrame)
                   (readyState [ornament; photoCard] FOCUS (Some 8%nat)))).
Proof.
  apply (handleGestures_keeps_coherent 0.5 (resultOf fistFrame)
           (readyState [ornament; photoCard] FOCUS (Some 8%nat))).
  - exact sample_coherent.
  - unfold InUnit. lra.
  - reflexivity.
Defined.

(** ** The detection loop *)

Lemma detect_same_time (t u : R) (result : HandLandmarkerResult) (s : State) :
  detect t u result t s = (Normal t, s).
Proof.
  unfold detect. destruct (Req_dec_T t t); [reflexivity | congruence].
Qed.

(** X9. A run of well-formed frames over a coherent state never ends the
    detection loop: every call of [detect] returns, and the state is
    coherent after the run. *)
Theorem detection_never_stops
  (frames : list (R * R * HandLandmarkerResult)) (lastVideoTime : R)
  (s : State) :
  Coherent s ->
  Forall GoodFrame frames ->
  (exists last, fst (detectLoop frames lastVideoTime s) = Normal last) /\
  Coherent (snd (detectLoop frames lastVideoTime s)).
Proof.
  intros Hco Hall. revert lastVideoTime s Hco.
  induction Hall as [| [[t u] result] frames [Hu Hframe] _ IH];
    intros lastVideoTime s Hco.
  - cbn. eauto.
  - cbn [detectLoop]. unfold detect.
    destruct (Req_dec_T t lastVideoTime); [apply IH; exact Hco|].
    destruct (handleGestures_keeps_coherent_core u result s Hco Hu Hframe)
      as [Hnormal Hco'].
    destruct (handleGestures u result s) as [[[]|e] s'];
      cbn in Hnormal; [| discriminate].
    apply IH. exact Hco'.
Qed.

Lemma detection_never_stops_witness :
  exists last,
    fst (detectLoop [(0, 0.5, resultOf pinchFrame);
                     (1, 0.5, resultOf fistFrame)] (-1)
           (readyState [ornament; photoCard] FOCUS (Some 8%nat)))
    = Normal last.
Proof.
  apply (detection_never_stops
           [(0, 0.5, resultOf pinchFrame); (1, 0.5, resultOf fistFrame)]
           (-1) (readyState [ornament; photoCard] FOCUS (Some 8%nat))).
  - exact sample_coherent.
  - repeat constructor; unfold InUnit; cbn; lra.
Defined.

(** X10. While no hand is seen, whatever the video times, the loop keeps
    running and leaves the mode, the mode shown by [App], the focus
    target, the pointer and the registry as they were. *)
Theorem no_hand_run_holds
  (frames : list (R * R * HandLandmarkerResult)) (lastVideoTime : R)
  (s : State) :
  Forall (fun f => NoHand (snd f)) frames ->
  let s' := snd (detectLoop frames lastVideoTime s) in
  (exists last, fst (detectLoop frames lastVideoTime s) = Normal last) /\
  modeRef s' = modeRef s /\ currentMode s' = currentMode s /\
  focusTargetRef s' = focusTargetRef s /\
  mouseRotationRef s' = mouseRotationRef s /\
  particlesRef s' = particlesRef s.
Proof.
  intros Hall. revert lastVideoTime s.
  induction Hall as [| [[t u] result] frames Hno _ IH];
    intros lastVideoTime s.
  - cbn. eauto 10.
  - cbn [detectLoop]. unfold detect.
    destruct (Req_dec_T t lastVideoTime); [apply IH|].
    assert (Heq : handleGestures u result s
                  = (Normal tt, with_gestureHint "No Hand Detected" s)).
    { unfold handleGestures. destruct Hno as [Hno | Hno];
        cbn in Hno; rewrite Hno; reflexivity. }
    rewrite Heq.
    exact (IH t (with_gestureHint "No Hand Detected" s)).
Qed.

Lemma no_hand_run_holds_witness :
  focusTargetRef
    (snd (detectLoop [(0, 0, mkResult None); (1, 0, mkResult (Some []))] (-1)
            (readyState [ornament; photoCard] FOCUS (Some 8%nat))))
  = Some 8%nat.
Proof.
  destruct (no_hand_run_holds
              [(0, 0, mkResult None); (1, 0, mkResult (Some []))] (-1)
              (readyState [ornament; photoCard] FOCUS (Some 8%nat)))
    as (_ & _ & _ & Hfocus & _).
  - constructor; [left; reflexivity|].
    constructor; [right; reflexivity | constructor].
  - exact Hfocus.
Defined.

(** X11. A frame whose video time is the one of the frame before it is
    skipped: the run goes as if it were not there, whatever it carries. *)
Theorem repeated_video_time_is_skipped (t u u' : R)
  (result result' : HandLandmarkerResult)
  (frames : list (R * R * HandLandmarkerResult)) (lastVideoTime : R)
  (s : State) :
  detectLoop ((t, u, result) :: (t, u', result') :: frames) lastVideoTime s
  = detectLoop ((t, u, result) :: frames) lastVideoTime s.
Proof.
  cbn [detectLoop]. unfold detect at 1 3.
  destruct (Req_dec_T t lastVideoTime) as [-> | Hnew].
  - rewrite detect_same_time. reflexivity.
  - destruct (handleGestures u result s) as [[[]|e] s1]; [| reflexivity].
    rewrite detect_same_time. reflexivity.
Qed.

(** X12. On an empty registry a pinching hand met outside FOCUS at a new
    video time ends the detection loop for good: the handler throws after
    it has set the mode to FOCUS, no later frame is looked at, and the
    mode stays FOCUS with the focus target as it was. *)
Theorem pinch_on_empty_registry_ends_detection (t u : R)
  (result : HandLandmarkerResult) (lm : list NormalizedLandmark)
  (rest : list (list NormalizedLandmark)) (d : R)
  (frames : list (R * R * HandLandmarkerResult)) (lastVideoTime : R)
  (s : State) :
  t <> lastVideoTime ->
  landmarks result = Some (lm :: rest) ->
  HandFrame lm ->
  pinchDist lm = Some d ->
  d < 0.05 ->
  modeRef s <> FOCUS ->
  particlesRef s = [] ->
  let out := detectLoop ((t, u, result) :: frames) lastVideoTime s in
  fst out = Throw TypeError /\
  modeRef (snd out) = FOCUS /\ currentMode (snd out) = FOCUS /\
  focusTargetRef (snd out) = focusTargetRef s.
Proof.
  intros Hnew Hl Hf Hd Hlt Hmode Hempty.
  destruct (frame_features lm Hf) as (d' & o & h & Hd' & Ho & Hh).
  rewrite Hd in Hd'. injection Hd' as <-.
  cbn zeta. cbn [detectLoop]. unfold detect.
  destruct (Req_dec_T t lastVideoTime); [contradiction|].
  rewrite (handleGestures_frame u result lm rest d o h s Hl Hd Ho Hh).
  rewrite switchMode_pinch by exact Hlt.
  cbn [modeRef with_mouseRotation].
  destruct (TreeMode_eqb (modeRef s) FOCUS) eqn:E;
    [apply TreeMode_eqb_eq in E; contradiction|].
  rewrite pickFocusTarget_empty by exact Hempty.
  cbn. auto.
Qed.

Lemma pinch_on_empty_registry_ends_detection_witness :
  modeRef (snd (detectLoop [(0, 0, resultOf pinchFrame);
                            (1, 0, resultOf fistFrame)] (-1) blankState))
  = FOCUS.
Proof.
  destruct (pinch_on_empty_registry_ends_detection 0 0 (resultOf pinchFrame)
              pinchFrame [] (hypot (0.5 - 0.5) (0.53 - 0.5))
              [(1, 0, resultOf fistFrame)] (-1) blankState)
    as (_ & Hmode & _).
  - lra.
  - reflexivity.
  - reflexivity.
  - reflexivity.
  - apply hypot_lt; lra.
  - discriminate.
  - reflexivity.
  - exact Hmode.
Defined.

(** ** The render loop *)

Section RenderLoop.

Variable lookAtThenMultiply : Vec3 -> Group -> Quaternion -> Object3D -> Vec3.

Lemma updateParticle_fixedPart (mode : TreeMode) (focus : option nat)
  (camera : Vec3) (group : Group) (delta time : R) (p : ParticleData) :
  fixedPart
    (updateParticle lookAtThenMultiply mode focus camera group delta time p)
  = fixedPart p.
Proof. reflexivity. Qed.

Lemma animate_keeps (delta time : R) (s : State) :
  let s' := animate lookAtThenMultiply delta time s in
  modeRef s' = modeRef s /\ currentMode s' = currentMode s /\
  focusTargetRef s' = focusTargetRef s /\
  mouseRotationRef s' = mouseRotationRef s /\
  nextObjectId s' = nextObjectId s /\
  map fixedPart (particlesRef s') = map fixedPart (particlesRef s).
Proof.
  unfold animate.
  destruct (rendererRef s); [| cbn; auto 10].
  destruct (composerRef s); [| cbn; auto 10].
  destruct (cameraRef s) as [camera|]; [| cbn; auto 10].
  destruct (mainGroupRef s) as [group|]; [| cbn; auto 10].
  cbn. repeat split. rewrite map_map. apply map_ext. intros p.
  apply updateParticle_fixedPart.
Qed.

Lemma animateLoop_cons (tick : R * R) (ticks : list (R * R)) (s : State) :
  animateLoop lookAtThenMultiply (tick :: ticks) s
  = animateLoop lookAtThenMultiply ticks
      (animate lookAtThenMultiply (fst tick) (snd tick) s).
Proof. reflexivity. Qed.

Lemma rendering_writes_transforms_only_core (ticks : list (R * R))
  (s : State) :
  let s' := animateLoop lookAtThenMultiply ticks s in
  modeRef s' = modeRef s /\ currentMode s' = currentMode s /\
  focusTargetRef s' = focusTargetRef s /\
  mouseRotationRef s' = mouseRotationRef s /\
  nextObjectId s' = nextObjectId s /\
  map fixedPart (particlesRef s') = map fixedPart (particlesRef s).
Proof.
  revert s. induction ticks as [| tick ticks IH]; intros s.
  - cbn. auto 10.
  - rewrite animateLoop_cons. cbn zeta.
    destruct (IH (animate lookAtThenMultiply (fst tick) (snd tick) s))
      as (H1 & H2 & H3 & H4 & H5 & H6).
    destruct (animate_keeps (fst tick) (snd tick) s)
      as (K1 & K2 & K3 & K4 & K5 & K6).
    repeat split; congruence.
Qed.

(** X13. Rendering, however long it runs, writes transforms only: the
    mode, the mode shown by [App], the focus target, the pointer and the
    id counter stay as they were, the registry keeps its length and
    order, and every particle keeps its identity, category, tree and
    scatter positions, base scale, spin and phase. *)
Theorem rendering_writes_transforms_only (ticks : list (R * R)) (s : State) :
  let s' := animateLoop lookAtThenMultiply ticks s in
  modeRef s' = modeRef s /\ currentMode s' = currentMode s /\
  focusTargetRef s' = focusTargetRef s /\
  mouseRotationRef s' = mouseRotationRef s /\
  nextObjectId s' = nextObjectId s /\
  map fixedPart (particlesRef s') = map fixedPart (particlesRef s).
Proof. exact (rendering_writes_transforms_only_core ticks s). Qed.

Lemma fixedPart_ids (ps qs : list ParticleData) :
  map fixedPart ps = map fixedPart qs ->
  map (fun p => id (mesh p)) ps = map (fun p => id (mesh p)) qs.
Proof.
  intros H.
  apply (f_equal (map (fun x => fst (fst (fst (fst (fst (fst x)))))))) in H.
  rewrite !map_map in H. exact H.
Qed.

Lemma rendering_keeps_coherent_core (ticks : list (R * R)) (s : State) :
  Coherent s -> Coherent (animateLoop lookAtThenMultiply ticks s).
Proof.
  intros (Hne & Hshown & Hfocus & Hvalid).
  destruct (rendering_writes_transforms_only_core ticks s)
    as (H1 & H2 & H3 & _ & _ & H6).
  apply fixedPart_ids in H6.
  unfold Coherent, FocusValid. rewrite H1, H2, H3.
  split; [| split; [exact Hshown | split; [exact Hfocus|]]].
  - intros Hnil. rewrite Hnil in H6. cbn in H6.
    destruct (particlesRef s); [congruence | discriminate].
  - unfold FocusValid in Hvalid.
    destruct (focusTargetRef s) as [t|]; [| exact I].
    destruct Hvalid as (p & Hin & Hid).
    assert (Hint : In t (map (fun p => id (mesh p)) (particlesRef s)))
      by (apply in_map_iff; eauto).
    rewrite <- H6 in Hint. apply in_map_iff in Hint.
    destruct Hint as (p' & Hid' & Hin'). eauto.
Qed.

(** X14. Rendering keeps a coherent state coherent: the focus target it
    was given stays an object of the registry through any number of
    ticks. *)
Theorem rendering_keeps_coherent (ticks : list (R * R)) (s : State) :
  Coherent s -> Coherent (animateLoop lookAtThenMultiply ticks s).
Proof. exact (rendering_keeps_coherent_core ticks s). Qed.

End RenderLoop.

Lemma rendering_keeps_coherent_witness :
  Coherent (animateLoop keepAngles [(0.25, 0); (0.25, 0.25)]
              (readyState [ornament; photoCard] FOCUS (Some 8%nat))).
Proof.
  apply (rendering_keeps_coherent keepAngles [(0.25, 0); (0.25, 0.25)]
           (readyState [ornament; photoCard] FOCUS (Some 8%nat))).
  exact sample_coherent.
Defined.

(** ** Motion of the group and of the objects *)

Lemma setFromEuler_unit (e : Vec3) : quatNormSq (setFromEuler e) = 1.
Proof.
  unfold quatNormSq, setFromEuler. cbn.
  pose proof (sin2_cos2 (vx e / 2)) as H1.
  pose proof (sin2_cos2 (vy e / 2)) as H2.
  pose proof (sin2_cos2 (vz e / 2)) as H3.
  unfold Rsqr in *.
  set (s1 := sin (vx e / 2)) in *. set (c1 := cos (vx e / 2)) in *.
  set (s2 := sin (vy e / 2)) in *. set (c2 := cos (vy e / 2)) in *.
  set (s3 := sin (vz e / 2)) in *. set (c3 := cos (vz e / 2)) in *.
  replace 1
    with ((s1 * s1 + c1 * c1) * (s2 * s2 + c2 * c2) * (s3 * s3 + c3 * c3))
    by (rewrite H1, H2, H3; ring).
  ring.
Qed.

Lemma invert_unit (q : Quaternion) : quatNormSq (invert q) = quatNormSq q.
Proof. unfold quatNormSq, invert. cbn. ring. Qed.

(** Turning by the inverse of a unit quaternion and then by the
    quaternion itself gives the vector back. *)
Lemma applyQuaternion_invert (v : Vec3) (q : Quaternion) :
  quatNormSq q = 1 -> applyQuaternion (applyQuaternion v (invert q)) q = v.
Proof.
  intros Hq. destruct v as [x y z], q as [a b c w].
  unfold quatNormSq in Hq. cbn in Hq.
  unfold applyQuaternion, invert. cbn.
  f_equal; nsatz.
Qed.

Lemma applyQuaternion_normSq (v : Vec3) (q : Quaternion) :
  quatNormSq q = 1 -> normSq (applyQuaternion v q) = normSq v.
Proof.
  intros Hq. destruct v as [x y z], q as [a b c w].
  unfold quatNormSq in Hq. cbn in Hq.
  unfold applyQuaternion, normSq. cbn.
  nsatz.
Qed.

Lemma scaleGoal_fixedPart (mode : TreeMode) (focus : option nat)
  (p q : ParticleData) :
  fixedPart p = fixedPart q -> scaleGoal mode focus p = scaleGoal mode focus q.
Proof.
  unfold fixedPart. intros H. injection H as Hid _ _ _ Hbase _ _.
  unfold scaleGoal, isFocusTarget. rewrite Hid, Hbase. reflexivity.
Qed.

Section Motion.

Variable lookAtThenMultiply : Vec3 -> Group -> Quaternion -> Object3D -> Vec3.

Lemma targetScale_scaleGoal (mode : TreeMode) (focus : option nat)
  (camera : Vec3) (group : Group) (delta time : R) (p : ParticleData) :
  targetScale
    (particleTarget lookAtThenMultiply mode focus camera group delta time p)
  = scaleGoal mode focus p.
Proof.
  unfold particleTarget, scaleGoal.
  destruct mode; try reflexivity.
  destruct (isFocusTarget focus p); reflexivity.
Qed.

(** X15. The target of the focused object is the point that the group's
    rotation carries to (0, 0, 35), straight in front of the camera,
    whatever that rotation is; it lies 35 from the origin, and the object
    is blended towards it at speed 4 and towards scale 5. *)
Theorem focus_target_faces_camera (focus : option nat) (camera : Vec3)
  (group : Group) (delta time : R) (p : ParticleData) :
  isFocusTarget focus p = true ->
  let t :=
    particleTarget lookAtThenMultiply FOCUS focus camera group delta time p in
  applyQuaternion (targetPos t) (setFromEuler (groupRotation group))
  = mkVec3 0 0 35 /\
  normSq (targetPos t) = 35 * 35 /\
  targetScale t = 5 /\
  lerpSpeed FOCUS focus p = 4.
Proof.
  intros Hfocus. unfold particleTarget, lerpSpeed. rewrite Hfocus.
  cbn [targetPos targetScale TreeMode_eqb andb].
  split; [| split; [| split]].
  - apply applyQuaternion_invert. apply setFromEuler_unit.
  - rewrite applyQuaternion_normSq
      by (rewrite invert_unit; apply setFromEuler_unit).
    unfold normSq. cbn. ring.
  - lra.
  - lra.
Qed.

(** X16. Idle motion stays close to the stored positions: in TREE mode the
    target of an object is its tree position moved vertically by at most
    0.2, in SCATTER mode its scatter position moved along x by at most 1;
    a TREE tick leaves the object's rotation alone. *)
Theorem idle_targets_stay_close (focus : option nat) (camera : Vec3)
  (group : Group) (delta time : R) (p : ParticleData) :
  let tree :=
    particleTarget lookAtThenMultiply TREE focus camera group delta time p in
  let scatter :=
    particleTarget lookAtThenMultiply SCATTER focus camera group delta time p
  in
  vx (targetPos tree) = vx (posTree p) /\
  vz (targetPos tree) = vz (posTree p) /\
  Rabs (vy (targetPos tree) - vy (posTree p)) <= 0.2 /\
  meshRotation tree = rotation (mesh p) /\
  Rabs (vx (targetPos scatter) - vx (posScatter p)) <= 1 /\
  vy (targetPos scatter) = vy (posScatter p) /\
  vz (targetPos scatter) = vz (posScatter p).
Proof.
  cbn. repeat split.
  - pose proof (SIN_bound (time + phase p)) as [Hlo Hhi].
    apply Rabs_le. lra.
  - pose proof (SIN_bound (time * 0.5 + phase p)) as [Hlo Hhi].
    apply Rabs_le. lra.
Qed.

(** X17. In TREE mode the group turns steadily and levels out: after any
    run of ticks its yaw has grown by 0.2 times the time elapsed, its
    pitch has been multiplied by (1 - delta) once per tick, and its roll
    and children are as before. *)
Theorem tree_run_turns_group (ticks : list (R * R)) (s : State) (g : Group) :
  SceneReady s ->
  modeRef s = TREE ->
  mainGroupRef s = Some g ->
  mainGroupRef (animateLoop lookAtThenMultiply ticks s)
  = Some (mkGroup
            (mkVec3 (vx (groupRotation g) * decay ticks)
                    (vy (groupRotation g) + 0.2 * totalDelta ticks)
                    (vz (groupRotation g)))
            (children g)).
Proof.
  revert s g. induction ticks as [| [delta time] ticks IH];
    intros s g Hready Hmode Hg.
  - cbn. rewrite Hg. destruct g as [[x y z] kids]. cbn.
    do 2 f_equal. f_equal; ring.
  - rewrite animateLoop_cons. cbn [fst snd].
    destruct (SceneReady_refs s Hready)
      as (camera & group & Hr & Hc & Hcam & Hg').
    rewrite Hg in Hg'. injection Hg' as <-.
    rewrite (IH (animate lookAtThenMultiply delta time s)
               (turnGroup TREE (mouseRotationRef s) delta g)).
    + cbn. unfold decay, totalDelta. do 2 f_equal. f_equal; ring.
    + apply animate_stays_ready. exact Hready.
    + destruct (animate_keeps lookAtThenMultiply delta time s) as [Hm _].
      rewrite Hm. exact Hmode.
    + rewrite (animate_ready lookAtThenMultiply delta time s camera g
                 Hr Hc Hcam Hg).
      cbn. rewrite Hmode. reflexivity.
Qed.

(** X18. In SCATTER and FOCUS mode a tick moves the group's yaw and pitch
    towards twice the pointer's x and half the pointer's y, leaving the
    fraction 1 - 2 delta of the distance.  With a pointer inside
    [-1, 1] and 2 delta at most 1, a yaw inside [-2, 2] and a pitch
    inside [-0.5, 0.5] stay inside. *)
Theorem steering_tick_bounded (delta time : R) (s : State) (g : Group) :
  SceneReady s ->
  modeRef s = SCATTER \/ modeRef s = FOCUS ->
  mainGroupRef s = Some g ->
  exists g',
    mainGroupRef (animate lookAtThenMultiply delta time s) = Some g' /\
    children g' = children g /\
    vz (groupRotation g') = vz (groupRotation g) /\
    vy (groupRotation g') - px (mouseRotationRef s) * 2
    = (1 - 2 * delta) * (vy (groupRotation g) - px (mouseRotationRef s) * 2) /\
    vx (groupRotation g') - py (mouseRotationRef s) * 0.5
    = (1 - 2 * delta)
      * (vx (groupRotation g) - py (mouseRotationRef s) * 0.5) /\
    (0 <= 2 * delta <= 1 ->
     -1 <= px (mouseRotationRef s) <= 1 ->
     -1 <= py (mouseRotationRef s) <= 1 ->
     -2 <= vy (groupRotation g) <= 2 ->
     -0.5 <= vx (groupRotation g) <= 0.5 ->
     -2 <= vy (groupRotation g') <= 2 /\
     -0.5 <= vx (groupRotation g') <= 0.5).
Proof.
  intros Hready Hmode Hg.
  destruct (SceneReady_refs s Hready)
    as (camera & group & Hr & Hc & Hcam & Hg').
  rewrite Hg in Hg'. injection Hg' as <-.
  rewrite (animate_ready lookAtThenMultiply delta time s camera g
             Hr Hc Hcam Hg).
  eexists. split; [reflexivity|].
  set (m := mouseRotationRef s).
  assert (Hrot : rotateGroup (modeRef s) m delta (groupRotation g)
    = mkVec3 (vx (groupRotation g)
              + (py m * 0.5 - vx (groupRotation g)) * delta * 2)
             (vy (groupRotation g)
              + (px m * 2 - vy (groupRotation g)) * delta * 2)
             (vz (groupRotation g)))
    by (destruct Hmode as [-> | ->]; reflexivity).
  unfold turnGroup. cbn [children groupRotation]. rewrite Hrot.
  cbn [vx vy vz].
  split; [reflexivity|]. split; [reflexivity|].
  split; [ring|]. split; [ring|].
  intros Hd Hpx Hpy Hyaw Hpitch.
  set (yaw := vy (groupRotation g)) in *.
  set (pitch := vx (groupRotation g)) in *.
  split; split; nra.
Qed.

End Motion.

(** ** Convergence of the scale blending *)

Section ScaleBlend.

Variable lookAtThenMultiply : Vec3 -> Group -> Quaternion -> Object3D -> Vec3.

Lemma animate_scale_error (delta time : R) (s : State) (i : nat)
  (p : ParticleData) :
  SceneReady s ->
  nth_error (particlesRef s) i = Some p ->
  exists p',
    nth_error (particlesRef (animate lookAtThenMultiply delta time s)) i
    = Some p' /\
    fixedPart p' = fixedPart p /\
    vx (scale (mesh p')) - scaleGoal (modeRef s) (focusTargetRef s) p
    = (1 - 3 * delta)
      * (vx (scale (mesh p)) - scaleGoal (modeRef s) (focusTargetRef s) p).
Proof.
  intros Hready Hp.
  destruct (animate_particle lookAtThenMultiply delta time s i p Hready Hp)
    as (camera & group & _ & _ & Hnth).
  eexists. split; [exact Hnth|]. split; [reflexivity|].
  unfold updateParticle. cbn [mesh scale vx].
  rewrite targetScale_scaleGoal. unfold MathUtils_lerp. ring.
Qed.

Lemma scale_error_decays_core (delta : R) (times : list R) (s : State)
  (i : nat)
  (p : ParticleData) :
  SceneReady s ->
  nth_error (particlesRef s) i = Some p ->
  exists p',
    nth_error
      (particlesRef
         (animateLoop lookAtThenMultiply (map (fun t => (delta, t)) times) s))
      i = Some p' /\
    fixedPart p' = fixedPart p /\
    vx (scale (mesh p')) - scaleGoal (modeRef s) (focusTargetRef s) p
    = (1 - 3 * delta) ^ length times
      * (vx (scale (mesh p)) - scaleGoal (modeRef s) (focusTargetRef s) p).
Proof.
  revert s p. induction times as [| time times IH]; intros s p Hready Hp.
  - exists p. cbn. split; [exact Hp|]. split; [reflexivity | ring].
  - cbn [map length]. rewrite animateLoop_cons. cbn [fst snd].
    destruct (animate_scale_error delta time s i p Hready Hp)
      as (p1 & Hp1 & Hfix1 & Herr1).
    destruct (IH (animate lookAtThenMultiply delta time s) p1
                (animate_stays_ready lookAtThenMultiply delta time s Hready)
                Hp1)
      as (p' & Hp' & Hfix' & Herr').
    destruct (animate_keeps lookAtThenMultiply delta time s)
      as (Hm & _ & Hf & _).
    rewrite Hm, Hf in Herr'.
    rewrite (scaleGoal_fixedPart _ _ p1 p Hfix1) in Herr'.
    exists p'. split; [exact Hp'|]. split; [congruence|].
    rewrite Herr', Herr1. cbn [pow]. ring.
Qed.

(** X19. Through a run of ticks of equal delta the distance of an object's
    scale from the scale it is blended towards is multiplied by
    1 - 3 delta at every tick. *)
Theorem scale_error_decays (delta : R) (times : list R) (s : State) (i : nat)
  (p : ParticleData) :
  SceneReady s ->
  nth_error (particlesRef s) i = Some p ->
  exists p',
    nth_error
      (particlesRef
         (animateLoop lookAtThenMultiply (map (fun t => (delta, t)) times) s))
      i = Some p' /\
    fixedPart p' = fixedPart p /\
    vx (scale (mesh p')) - scaleGoal (modeRef s) (focusTargetRef s) p
    = (1 - 3 * delta) ^ length times
      * (vx (scale (mesh p)) - scaleGoal (modeRef s) (focusTargetRef s) p).
Proof. exact (scale_error_decays_core delta times s i p). Qed.

(** X20. For a delta with 0 < 3 delta < 2 the scale of every object
    converges to the scale it is blended towards: for every tolerance
    there is a number of ticks after which the scale stays within it. *)
Theorem scale_converges (delta eps : R) (s : State) (i : nat)
  (p : ParticleData) :
  SceneReady s ->
  nth_error (particlesRef s) i = Some p ->
  0 < 3 * delta < 2 ->
  0 < eps ->
  exists N : nat,
    forall times : list R,
      (N <= length times)%nat ->
      exists p',
        nth_error
          (particlesRef
             (animateLoop lookAtThenMultiply
                (map (fun t => (delta, t)) times) s))
          i = Some p' /\
        Rabs (vx (scale (mesh p'))
              - scaleGoal (modeRef s) (focusTargetRef s) p) < eps.
Proof.
  intros Hready Hp Hdelta Heps.
  set (e0 := vx (scale (mesh p)) - scaleGoal (modeRef s) (focusTargetRef s) p).
  assert (Hfactor : Rabs (1 - 3 * delta) < 1) by (apply Rabs_def1; lra).
  assert (Hpos : 0 < Rabs e0 + 1) by (pose proof (Rabs_pos e0); lra).
  destruct (pow_lt_1_zero (1 - 3 * delta) Hfactor (eps / (Rabs e0 + 1)))
    as [N HN].
  { apply Rdiv_lt_0_compat; assumption. }
  exists N. intros times Hlen.
  destruct (scale_error_decays_core delta times s i p Hready Hp)
    as (p' & Hp' & _ & Herr).
  exists p'. split; [exact Hp'|].
  rewrite Herr. fold e0. rewrite Rabs_mult.
  specialize (HN (length times) Hlen).
  pose proof (Rabs_pos e0) as He0.
  pose proof (Rabs_pos ((1 - 3 * delta) ^ length times)) as Hpw.
  assert (Hbound : Rabs ((1 - 3 * delta) ^ length times) * (Rabs e0 + 1) < eps).
  { apply (Rmult_lt_compat_r (Rabs e0 + 1)) in HN; [| exact Hpos].
    replace (eps / (Rabs e0 + 1) * (Rabs e0 + 1)) with eps in HN
      by (field; lra).
    exact HN. }
  nra.
Qed.

End ScaleBlend.

Lemma scale_error_decays_witness :
  exists p',
    nth_error (particlesRef (animateLoop keepAngles [(0.25, 0); (0.25, 0.25)]
                               (readyState [ornament] TREE None))) 0
    = Some p' /\
    vx (scale (mesh p')) - 2 = (1 - 3 * 0.25) ^ 2 * (1 - 2).
Proof.
  destruct (scale_error_decays keepAngles 0.25 [0; 0.25]
              (readyState [ornament] TREE None) 0 ornament
              (readyState_ready _ _ _) eq_refl)
    as (p' & Hnth & _ & Herr).
  exists p'. split; [exact Hnth | exact Herr].
Defined.

Lemma scale_converges_witness :
  exists N : nat,
    forall times : list R,
      (N <= length times)%nat ->
      exists p',
        nth_error
          (particlesRef
             (animateLoop keepAngles (map (fun t => (0.25, t)) times)
                (readyState [ornament] TREE None)))
          0 = Some p' /\
        Rabs (vx (scale (mesh p')) - 2) < 0.01.
Proof.
  apply (scale_converges keepAngles 0.25 0.01
           (readyState [ornament] TREE None) 0 ornament).
  - apply readyState_ready.
  - reflexivity.
  - lra.
  - lra.
Defined.

Lemma focus_target_faces_camera_witness :
  targetScale (particleTarget keepAngles FOCUS (Some 7%nat) (mkVec3 0 0 45)
                 (mkGroup origin []) 0.25 0 ornament) = 5.
Proof.
  destruct (focus_target_faces_camera keepAngles (Some 7%nat) (mkVec3 0 0 45)
              (mkGroup origin []) 0.25 0 ornament eq_refl)
    as (_ & _ & Hscale & _).
  exact Hscale.
Defined.

Lemma tree_run_turns_group_witness :
  mainGroupRef (animateLoop keepAngles [(0.25, 0); (0.25, 0.25)]
                  (readyState [ornament] TREE None))
  = Some (mkGroup
            (mkVec3 (0 * decay [(0.25, 0); (0.25, 0.25)])
                    (0 + 0.2 * totalDelta [(0.25, 0); (0.25, 0.25)])
                    0)
            []).
Proof.
  apply (tree_run_turns_group keepAngles [(0.25, 0); (0.25, 0.25)]
           (readyState [ornament] TREE None) (mkGroup origin [])).
  - apply readyState_ready.
  - reflexivity.
  - reflexivity.
Defined.

Lemma steering_tick_bounded_witness :
  exists g',
    mainGroupRef (animate keepAngles 0.25 0
                    (readyState [ornament] SCATTER None)) = Some g' /\
    -2 <= vy (groupRotation g') <= 2.
Proof.
  destruct (steering_tick_bounded keepAngles 0.25 0
              (readyState [ornament] SCATTER None) (mkGroup origin [])
              (readyState_ready _ _ _) (or_introl eq_refl) eq_refl)
    as (g' & Hg & _ & _ & _ & _ & Hbound).
  exists g'. split; [exact Hg|].
  apply Hbound; cbn; lra.
Defined.

(** ** Scene population *)

Lemma createMesh_objects (rand : R) :
  (1 <= snd (createMesh rand) <= 3)%nat.
Proof.
  unfold createMesh.
  destruct (Rltb rand 0.05); [cbn; lia|].
  destruct (Rltb rand 0.4); [cbn; lia|].
  destruct (Rltb rand 0.7); cbn; lia.
Qed.

Lemma objectIdAfter_step (draws : nat -> ParticleDraws) (k i n : nat) :
  objectIdAfter draws (S k) i n
  = (objectIdAfter draws k i n
     + snd (createMesh (dRand (draws (i + k)))))%nat.
Proof.
  revert i n. induction k as [| k IH]; intros i n.
  - cbn. rewrite Nat.add_0_r. reflexivity.
  - change (objectIdAfter draws (S (S k)) i n)
      with (objectIdAfter draws (S k) (S i)
              (n + snd (createMesh (dRand (draws i))))).
    rewrite IH. cbn [objectIdAfter].
    replace (S i + k)%nat with (i + S k)%nat by lia. reflexivity.
Qed.

Lemma objectIdAfter_lt (draws : nat -> ParticleDraws) (i n k k' : nat) :
  (k < k')%nat ->
  (objectIdAfter draws k i n < objectIdAfter draws k' i n)%nat.
Proof.
  induction 1 as [| k' _ IH].
  - rewrite objectIdAfter_step.
    pose proof (createMesh_objects (dRand (draws (i + k)%nat))). lia.
  - rewrite objectIdAfter_step.
    pose proof (createMesh_objects (dRand (draws (i + k')%nat))). lia.
Qed.

Lemma createMainElements_spec (draws : nat -> ParticleDraws)
  (count i n : nat) (particles : list ParticleData) (kids : list nat) :
  createMainElements draws count i n particles kids
  = (particles
     ++ map (fun k => newParticle (draws (i + k)%nat)
                        (objectIdAfter draws k i n)) (seq 0 count),
     kids ++ map (fun k => objectIdAfter draws k i n) (seq 0 count),
     objectIdAfter draws count i n).
Proof.
  revert i n particles kids.
  induction count as [| count IH]; intros i n particles kids.
  - cbn. rewrite !app_nil_r. reflexivity.
  - cbn [createMainElements]. rewrite IH.
    cbn [seq map objectIdAfter]. rewrite <- !seq_shift, !map_map.
    rewrite <- !app_assoc. cbn [app]. rewrite Nat.add_0_r.
    do 2 f_equal.
    + f_equal. f_equal. apply map_ext. intros k.
      replace (S i + k)%nat with (i + S k)%nat by lia. reflexivity.
Qed.

Lemma generateParticles_ready (draws : nat -> ParticleDraws) (s : State)
  (g : Group) :
  mainGroupRef s = Some g ->
  let n := nextObjectId s in
  generateParticles draws s
  = with_particles
      (map (fun k => newParticle (draws k) (objectIdAfter draws k 0 n))
           (seq 0 CONFIG_counts_particles))
      (with_mainGroup
         (Some (mkGroup (groupRotation g)
                  ((children g
                    ++ map (fun k => objectIdAfter draws k 0 n)
                         (seq 0 CONFIG_counts_particles))
                   ++ [objectIdAfter draws CONFIG_counts_particles 0 n])))
         (with_nextObjectId
            (objectIdAfter draws CONFIG_counts_particles 0 n + 1) s)).
Proof.
  intros Hg. unfold generateParticles. rewrite Hg.
  rewrite createMainElements_spec. reflexivity.
Qed.

Lemma generated_particle (draws : nat -> ParticleDraws) (s : State)
  (i : nat) :
  mainGroupRef s <> None ->
  (i < CONFIG_counts_particles)%nat ->
  nth_error (particlesRef (generateParticles draws s)) i
  = Some (newParticle (draws i)
            (objectIdAfter draws i 0 (nextObjectId s))).
Proof.
  intros Hg Hi.
  destruct (mainGroupRef s) as [g|] eqn:E; [| congruence].
  rewrite (generateParticles_ready draws s g E).
  cbn [particlesRef with_particles].
  rewrite nth_error_map, nth_error_seq.
  apply Nat.ltb_lt in Hi. rewrite Hi. reflexivity.
Qed.

Lemma generated_particle_inv (draws : nat -> ParticleDraws) (s : State)
  (i : nat) (p : ParticleData) :
  mainGroupRef s <> None ->
  nth_error (particlesRef (generateParticles draws s)) i = Some p ->
  (i < CONFIG_counts_particles)%nat /\
  p = newParticle (draws i) (objectIdAfter draws i 0 (nextObjectId s)).
Proof.
  intros Hg Hp.
  assert (Hi : (i < CONFIG_counts_particles)%nat).
  { destruct (mainGroupRef s) as [g|] eqn:E; [| congruence].
    rewrite (generateParticles_ready draws s g E) in Hp.
    cbn [particlesRef with_particles] in Hp.
    assert (Hlt : (i < length (map (fun k => newParticle (draws k)
                     (objectIdAfter draws k 0 (nextObjectId s)))
                     (seq 0 CONFIG_counts_particles)))%nat)
      by (apply nth_error_Some; congruence).
    rewrite length_map, length_seq in Hlt. exact Hlt. }
  split; [exact Hi|].
  rewrite (generated_particle draws s i Hg Hi) in Hp. congruence.
Qed.

(** X21. Populating an initialised scene replaces the registry by exactly
    800 fresh particles, whatever it held, and gives the main group 801
    more children (the particles and the dust system) without turning it;
    without the main group nothing happens. *)
Theorem population_fills_registry (draws : nat -> ParticleDraws) (s : State) :
  (mainGroupRef s = None -> generateParticles draws s = s) /\
  (forall g,
     mainGroupRef s = Some g ->
     length (particlesRef (generateParticles draws s)) = 800%nat /\
     exists g',
       mainGroupRef (generateParticles draws s) = Some g' /\
       groupRotation g' = groupRotation g /\
       length (children g') = (length (children g) + 801)%nat).
Proof.
  split.
  - intros Hg. unfold generateParticles. rewrite Hg. reflexivity.
  - intros g Hg. rewrite (generateParticles_ready draws s g Hg).
    cbn [particlesRef with_particles mainGroupRef with_mainGroup].
    split.
    + rewrite length_map, length_seq. reflexivity.
    + eexists. split; [reflexivity|]. split; [reflexivity|].
      cbn [children]. rewrite !length_app, length_map, length_seq.
      cbn. unfold CONFIG_counts_particles. lia.
Qed.

Lemma population_fills_registry_witness :
  length (particlesRef (generateParticles midDraws
                          (readyState [ornament] TREE None))) = 800%nat.
Proof.
  destruct (population_fills_registry midDraws
              (readyState [ornament] TREE None)) as [_ Hready].
  destruct (Hready (mkGroup origin []) eq_refl) as [Hlen _].
  exact Hlen.
Defined.

(** X22. The category of a generated particle follows the first draw of
    its round: photo card below 0.05, green box from there to 0.4, gold
    ornament from there to 0.7, red ornament from 0.7 on.  No generated
    particle is a cane or dust. *)
Theorem population_categories (draws : nat -> ParticleDraws) (s : State)
  (i : nat) (p : ParticleData) :
  mainGroupRef s <> None ->
  nth_error (particlesRef (generateParticles draws s)) i = Some p ->
  let rand := dRand (draws i) in
  (rand < 0.05 -> type p = PHOTO) /\
  (0.05 <= rand < 0.4 -> type p = BOX_GREEN) /\
  (0.4 <= rand < 0.7 -> type p = ORNAMENT_GOLD) /\
  (0.7 <= rand -> type p = ORNAMENT_RED) /\
  type p <> CANE /\ type p <> DUST.
Proof.
  intros Hg Hp.
  destruct (generated_particle_inv draws s i p Hg Hp) as [_ ->].
  cbn zeta. cbn [type newParticle]. unfold createMesh, Rltb.
  destruct (Rlt_dec (dRand (draws i)) 0.05);
    [cbn; repeat split; intros; try lra; try reflexivity; discriminate|].
  destruct (Rlt_dec (dRand (draws i)) 0.4);
    [cbn; repeat split; intros; try lra; try reflexivity; discriminate|].
  destruct (Rlt_dec (dRand (draws i)) 0.7);
    cbn; repeat split; intros; try lra; try reflexivity; discriminate.
Qed.

Lemma population_categories_witness :
  type (newParticle (midDraws 0) 9) = ORNAMENT_GOLD.
Proof.
  destruct (population_categories midDraws (readyState [] TREE None) 0
              (newParticle (midDraws 0) 9)) as (_ & _ & Hgold & _).
  - discriminate.
  - apply (generated_particle midDraws (readyState [] TREE None) 0).
    + discriminate.
    + unfold CONFIG_counts_particles. lia.
  - apply Hgold. cbn. lra.
Defined.

(** X23. With draws in [0, 1) the tree position of a generated particle
    lies inside the cone: its height is between -12.5 and 12.5, and its
    distance from the axis is at most the radius of the cone at that
    height, 9 * (12.5 - y) / 25. *)
Theorem population_tree_position_in_cone (draws : nat -> ParticleDraws)
  (s : State) (i : nat) (p : ParticleData) :
  mainGroupRef s <> None ->
  nth_error (particlesRef (generateParticles draws s)) i = Some p ->
  DrawsInUnit (draws i) ->
  let y := vy (posTree p) in
  let radiusAtY := 9 * (12.5 - y) / 25 in
  -12.5 <= y < 12.5 /\
  0 < radiusAtY <= 9 /\
  vx (posTree p) * vx (posTree p) + vz (posTree p) * vz (posTree p)
  <= radiusAtY * radiusAtY.
Proof.
  intros Hg Hp Hdraws.
  destruct (generated_particle_inv draws s i p Hg Hp) as [_ ->].
  destruct Hdraws as (_ & [Hy0 Hy1] & _ & [Hr0 Hr1] & _).
  cbn zeta. cbn [posTree newParticle vx vy vz].
  set (d := draws i) in *.
  pose proof (sin2_cos2 (dAngle d * PI * 20)) as Htrig. unfold Rsqr in Htrig.
  pose proof (sqrt_sqrt (dRadius d) Hr0) as Hsqrt.
  set (c := cos (dAngle d * PI * 20)) in *.
  set (sn := sin (dAngle d * PI * 20)) in *.
  set (q := sqrt (dRadius d)) in *.
  split; [lra|]. split; [lra|].
  set (R0 := 9 * (1 - (dY d * 25 - 25 / 2 + 25 / 2) / 25)).
  replace (9 * (12.5 - (dY d * 25 - 25 / 2)) / 25) with R0
    by (unfold R0; lra).
  replace (c * (R0 * q) * (c * (R0 * q)) + sn * (R0 * q) * (sn * (R0 * q)))
    with (R0 * R0 * (q * q) * (sn * sn + c * c)) by ring.
  rewrite Htrig, Hsqrt.
  pose proof (Rle_0_sqr R0) as Hsq. unfold Rsqr in Hsq. nra.
Qed.

(** X24. With draws in [0, 1) the scatter position of a generated
    particle lies in the shell between the radii 15 and 35 around the
    origin. *)
Theorem population_scatter_position_in_shell (draws : nat -> ParticleDraws)
  (s : State) (i : nat) (p : ParticleData) :
  mainGroupRef s <> None ->
  nth_error (particlesRef (generateParticles draws s)) i = Some p ->
  DrawsInUnit (draws i) ->
  15 * 15 <= normSq (posScatter p) < 35 * 35.
Proof.
  intros Hg Hp Hdraws.
  destruct (generated_particle_inv draws s i p Hg Hp) as [_ ->].
  destruct Hdraws as (_ & _ & _ & _ & [Hs0 Hs1] & _).
  unfold normSq. cbn [posScatter newParticle vx vy vz].
  set (d := draws i) in *.
  pose proof (sin2_cos2 (dTheta d * PI * 2)) as Ht. unfold Rsqr in Ht.
  pose proof (sin2_cos2 (acos (2 * dPhi d - 1))) as Hp'. unfold Rsqr in Hp'.
  set (ct := cos (dTheta d * PI * 2)) in *.
  set (st := sin (dTheta d * PI * 2)) in *.
  set (cp := cos (acos (2 * dPhi d - 1))) in *.
  set (sp := sin (acos (2 * dPhi d - 1))) in *.
  set (r := 15 + dRScatter d * 20).
  replace (r * sp * ct * (r * sp * ct) + r * sp * st * (r * sp * st)
           + r * cp * (r * cp))
    with (r * r * (sp * sp * (st * st + ct * ct) + cp * cp)) by ring.
  rewrite Ht, Rmult_1_r, Hp'. unfold r. nra.
Qed.

(** X25. A generated particle starts at its tree position, unrotated,
    with an isotropic scale equal to its base scale; with draws in [0, 1)
    the base scale is in [0.5, 1), each spin component in [0, 2) and the
    phase in [0, 2 PI). *)
Theorem population_initial_transform (draws : nat -> ParticleDraws)
  (s : State) (i : nat) (p : ParticleData) :
  mainGroupRef s <> None ->
  nth_error (particlesRef (generateParticles draws s)) i = Some p ->
  DrawsInUnit (draws i) ->
  position (mesh p) = posTree p /\
  rotation (mesh p) = mkVec3 0 0 0 /\
  scale (mesh p) = mkVec3 (baseScale p) (baseScale p) (baseScale p) /\
  0.5 <= baseScale p < 1 /\
  0 <= vx (rotationSpeed p) < 2 /\
  0 <= vy (rotationSpeed p) < 2 /\
  0 <= vz (rotationSpeed p) < 2 /\
  0 <= phase p < 2 * PI.
Proof.
  intros Hg Hp Hdraws.
  destruct (generated_particle_inv draws s i p Hg Hp) as [_ ->].
  destruct Hdraws
    as (_ & _ & _ & _ & _ & _ & _ & Hsc & Hsx & Hsy & Hsz & Hph).
  unfold InUnit in *. cbn.
  pose proof PI_RGT_0 as Hpi.
  repeat split; try lra; nra.
Qed.

Lemma midDraws_in_unit (i : nat) : DrawsInUnit (midDraws i).
Proof. unfold DrawsInUnit, InUnit. cbn. repeat split; lra. Qed.

Lemma midDraws_generated :
  nth_error (particlesRef (generateParticles midDraws
                             (readyState [] TREE None))) 0
  = Some (newParticle (midDraws 0) 9).
Proof.
  apply (generated_particle midDraws (readyState [] TREE None) 0).
  - discriminate.
  - unfold CONFIG_counts_particles. lia.
Qed.

Lemma population_tree_position_in_cone_witness :
  -12.5 <= vy (posTree (newParticle (midDraws 0) 9)) < 12.5.
Proof.
  destruct (population_tree_position_in_cone midDraws
              (readyState [] TREE None) 0 (newParticle (midDraws 0) 9))
    as (Hy & _).
  - discriminate.
  - exact midDraws_generated.
  - apply midDraws_in_unit.
  - exact Hy.
Defined.

Lemma population_scatter_position_in_shell_witness :
  15 * 15 <= normSq (posScatter (newParticle (midDraws 0) 9)) < 35 * 35.
Proof.
  apply (population_scatter_position_in_shell midDraws
           (readyState [] TREE None) 0 (newParticle (midDraws 0) 9)).
  - discriminate.
  - exact midDraws_generated.
  - apply midDraws_in_unit.
Defined.

Lemma population_initial_transform_witness :
  0.5 <= baseScale (newParticle (midDraws 0) 9) < 1.
Proof.
  destruct (population_initial_transform midDraws
              (readyState [] TREE None) 0 (newParticle (midDraws 0) 9))
    as (_ & _ & _ & Hbase & _).
  - discriminate.
  - exact midDraws_generated.
  - apply midDraws_in_unit.
  - exact Hbase.
Defined.

Lemma NoDup_map_increasing (f : nat -> nat) (start len : nat) :
  (forall k k', (k < k')%nat -> (f k < f k')%nat) ->
  NoDup (map f (seq start len)).
Proof.
  intros Hinc. revert start. induction len as [| len IH]; intros start.
  - constructor.
  - cbn. constructor; [| apply IH].
    intros Hin. apply in_map_iff in Hin. destruct Hin as (k & Hk & Hin).
    apply in_seq in Hin. specialize (Hinc start k). lia.
Qed.

(** X26. The particles generated on an initialised scene are pairwise
    different objects, each with an id the counter had not handed out
    before, and the counter ends above all of them. *)
Theorem population_ids_fresh (draws : nat -> ParticleDraws) (s : State) :
  mainGroupRef s <> None ->
  let s' := generateParticles draws s in
  NoDup (map (fun p => id (mesh p)) (particlesRef s')) /\
  (forall p, In p (particlesRef s') ->
     (nextObjectId s <= id (mesh p) < nextObjectId s')%nat).
Proof.
  intros Hg. destruct (mainGroupRef s) as [g|] eqn:E; [| congruence].
  cbn zeta. rewrite (generateParticles_ready draws s g E).
  cbn [particlesRef with_particles nextObjectId with_mainGroup
       with_nextObjectId].
  split.
  - rewrite map_map. cbn [id mesh newParticle].
    apply NoDup_map_increasing. intros k k'. apply objectIdAfter_lt.
  - intros p Hin. apply in_map_iff in Hin. destruct Hin as (k & <- & Hin).
    apply in_seq in Hin. cbn [id mesh newParticle].
    assert (Hup : (objectIdAfter draws k 0 (nextObjectId s)
                   < objectIdAfter draws CONFIG_counts_particles 0
                       (nextObjectId s))%nat)
      by (apply objectIdAfter_lt; lia).
    assert (Hlow : (nextObjectId s
                    <= objectIdAfter draws k 0 (nextObjectId s))%nat).
    { destruct k as [| k]; [cbn; lia|].
      pose proof (objectIdAfter_lt draws 0 (nextObjectId s) 0 (S k)) as H.
      change (objectIdAfter draws 0 0 (nextObjectId s))
        with (nextObjectId s) in H.
      lia. }
    lia.
Qed.

Lemma population_ids_fresh_witness :
  NoDup (map (fun p => id (mesh p))
           (particlesRef (generateParticles midDraws
                            (readyState [ornament] TREE None)))).
Proof.
  apply (population_ids_fresh midDraws (readyState [ornament] TREE None)).
  discriminate.
Defined.

Lemma population_makes_coherent_core (draws : nat -> ParticleDraws)
  (s : State) :
  mainGroupRef s <> None ->
  focusTargetRef s = None ->
  modeRef s <> FOCUS ->
  currentMode s = modeRef s ->
  Coherent (generateParticles draws s).
Proof.
  intros Hg Hfocus Hmode Hshown.
  destruct (mainGroupRef s) as [g|] eqn:E; [| congruence].
  rewrite (generateParticles_ready draws s g E).
  unfold Coherent, FocusValid.
  cbn [particlesRef currentMode modeRef focusTargetRef with_particles
       with_mainGroup with_nextObjectId].
  rewrite Hfocus.
  split.
  { intros H. apply (f_equal (@length ParticleData)) in H.
    rewrite length_map, length_seq in H. discriminate. }
  split; [exact Hshown|].
  split; [split; [congruence | intros H; contradiction] | exact I].
Qed.

Lemma midPopulation_coherent :
  Coherent (generateParticles midDraws (readyState [] TREE None)).
Proof.
  apply population_makes_coherent_core.
  - discriminate.
  - reflexivity.
  - discriminate.
  - reflexivity.
Qed.

(** X27. Populating an initialised scene that holds no focus target and
    is not in FOCUS mode, with [App] showing the engine's mode, gives a
    coherent state. *)
Theorem population_makes_coherent (draws : nat -> ParticleDraws) (s : State) :
  mainGroupRef s <> None ->
  focusTargetRef s = None ->
  modeRef s <> FOCUS ->
  currentMode s = modeRef s ->
  Coherent (generateParticles draws s).
Proof. exact (population_makes_coherent_core draws s). Qed.

Lemma population_makes_coherent_witness :
  Coherent (generateParticles midDraws (readyState [] TREE None)).
Proof.
  apply population_makes_coherent.
  - discriminate.
  - reflexivity.
  - discriminate.
  - reflexivity.
Defined.

(** ** Uploads *)

Lemma addPhotoParticle_coherent (u : PhotoDraws) (s : State) :
  Coherent s -> Coherent (snd (addPhotoParticle u s)).
Proof.
  intros Hco.
  destruct (mainGroupRef s) as [g|] eqn:E.
  - destruct (addPhotoParticle_ready u s g E) as (p & _ & Hid & Heq).
    rewrite Heq. unfold Coherent, FocusValid. cbn.
    split; [intros H; apply app_eq_nil in H; destruct H; discriminate|].
    split; [reflexivity|].
    split; [split; [reflexivity | discriminate]|].
    exists p. split; [apply in_or_app; right; now left | exact Hid].
  - rewrite (addPhotoParticle_not_ready u s E). exact Hco.
Qed.

(** X28. An uploaded photo is placed on the sphere of radius 25 for
    SCATTER mode and on the ring of radius 4 around the axis for TREE mode,
    at a height between -12.5 and 12.5; it starts at its scatter position
    with unit scale, base scale 1 and phase 0. *)
Theorem uploaded_photo_placement (u : PhotoDraws) (s : State) :
  mainGroupRef s <> None ->
  InUnit (uY u) ->
  exists p,
    particlesRef (snd (addPhotoParticle u s)) = particlesRef s ++ [p] /\
    normSq (posScatter p) = 25 * 25 /\
    vx (posTree p) * vx (posTree p) + vz (posTree p) * vz (posTree p)
    = 4 * 4 /\
    -12.5 <= vy (posTree p) < 12.5 /\
    position (mesh p) = posScatter p /\
    scale (mesh p) = mkVec3 1 1 1 /\
    baseScale p = 1 /\ phase p = 0.
Proof.
  intros Hg [Hy0 Hy1].
  destruct (mainGroupRef s) as [g|] eqn:E; [| congruence].
  unfold addPhotoParticle, bind, gets. cbn beta iota. rewrite E.
  cbn [snd modify particlesRef with_particles with_mode with_currentMode
       with_focusTarget with_mainGroup with_nextObjectId setMode].
  eexists. split; [reflexivity|].
  unfold normSq. cbn [posScatter posTree mesh position scale baseScale phase
                      vx vy vz].
  pose proof (sin2_cos2 (uTheta u * PI * 2)) as Ht. unfold Rsqr in Ht.
  pose proof (sin2_cos2 (acos (2 * uPhi u - 1))) as Hp. unfold Rsqr in Hp.
  pose proof (sin2_cos2 (uAngle u * PI * 2)) as Ha. unfold Rsqr in Ha.
  set (ct := cos (uTheta u * PI * 2)) in *.
  set (st := sin (uTheta u * PI * 2)) in *.
  set (cp := cos (acos (2 * uPhi u - 1))) in *.
  set (sp := sin (acos (2 * uPhi u - 1))) in *.
  set (ca := cos (uAngle u * PI * 2)) in *.
  set (sa := sin (uAngle u * PI * 2)) in *.
  split; [| split; [| split; [lra | repeat split]]].
  - replace (25 * sp * ct * (25 * sp * ct) + 25 * sp * st * (25 * sp * st)
             + 25 * cp * (25 * cp))
      with (25 * 25 * (sp * sp * (st * st + ct * ct) + cp * cp)) by ring.
    rewrite Ht, Rmult_1_r, Hp. ring.
  - replace (ca * 4 * (ca * 4) + sa * 4 * (sa * 4))
      with (4 * 4 * (sa * sa + ca * ca)) by ring.
    rewrite Ha. ring.
Qed.

Lemma uploaded_photo_placement_witness :
  exists p,
    particlesRef (snd (addPhotoParticle midPhotoDraws
                         (readyState [ornament] TREE None)))
    = [ornament; p] /\
    normSq (posScatter p) = 25 * 25.
Proof.
  destruct (uploaded_photo_placement midPhotoDraws
              (readyState [ornament] TREE None))
    as (p & Hps & Hnorm & _).
  - discriminate.
  - unfold InUnit. cbn. lra.
  - exists p. split; [exact Hps | exact Hnorm].
Defined.

(** X29. Uploads add up: after any number of uploads into an initialised
    scene the registry has grown by one photo per upload, in order, each a
    new object three ids after the one before; the mode is FOCUS and the
    focus target is the photo uploaded last. *)
Theorem uploads_accumulate (us : list PhotoDraws) (s : State) :
  mainGroupRef s <> None ->
  exists photos,
    fst (uploadAll us s) = Normal tt /\
    particlesRef (snd (uploadAll us s)) = particlesRef s ++ photos /\
    Forall (fun p => type p = PHOTO) photos /\
    map (fun p => id (mesh p)) photos
    = map (fun k => (nextObjectId s + 3 * k)%nat) (seq 0 (length us)) /\
    nextObjectId (snd (uploadAll us s))
    = (nextObjectId s + 3 * length us)%nat /\
    (us <> [] ->
     modeRef (snd (uploadAll us s)) = FOCUS /\
     currentMode (snd (uploadAll us s)) = FOCUS /\
     focusTargetRef (snd (uploadAll us s))
     = Some (nextObjectId s + 3 * (length us - 1))%nat).
Proof.
  revert s. induction us as [| u us IH]; intros s Hg.
  - exists []. cbn. rewrite app_nil_r, Nat.add_0_r.
    split; [reflexivity|]. split; [reflexivity|]. split; [constructor|].
    split; [reflexivity|]. split; [reflexivity|].
    intros H. congruence.
  - destruct (mainGroupRef s) as [g|] eqn:E; [| congruence].
    destruct (addPhotoParticle_ready u s g E) as (p & Hty & Hid & Heq).
    cbn [uploadAll]. unfold bind at 1 2 3 4 5 6. rewrite Heq.
    set (s1 := mkState (particlesRef s ++ [p]) FOCUS (Some (nextObjectId s))
                 (mouseRotationRef s) (cameraRef s) (rendererRef s)
                 (composerRef s)
                 (Some (mkGroup (groupRotation g)
                          (children g ++ [nextObjectId s])))
                 FOCUS (gestureHint s) (nextObjectId s + 3)).
    destruct (IH s1) as (photos & Hn & Hps & Hall & Hids & Hnext & Hlast);
      [discriminate|].
    exists (p :: photos).
    split; [exact Hn|].
    split; [rewrite Hps; cbn; rewrite <- app_assoc; reflexivity|].
    split; [constructor; assumption|].
    split.
    { cbn [map length seq]. rewrite Hid, Nat.mul_0_r, Nat.add_0_r.
      f_equal. rewrite Hids, <- seq_shift, map_map.
      apply map_ext. intros k. cbn. lia. }
    split; [rewrite Hnext; cbn; lia|].
    intros _. destruct us as [| u' us'].
    + cbn. rewrite Nat.add_0_r. auto.
    + destruct Hlast as (Hm & Hc & Hf); [discriminate|].
      split; [exact Hm|]. split; [exact Hc|].
      rewrite Hf. cbn [length nextObjectId s1]. f_equal. lia.
Qed.

Lemma uploads_accumulate_witness :
  focusTargetRef (snd (uploadAll [midPhotoDraws; midPhotoDraws]
                         (readyState [ornament] TREE None)))
  = Some 12%nat.
Proof.
  destruct (uploads_accumulate [midPhotoDraws; midPhotoDraws]
              (readyState [ornament] TREE None))
    as (photos & _ & _ & _ & _ & _ & Hlast).
  - discriminate.
  - destruct Hlast as (_ & _ & Hfocus); [discriminate|].
    exact Hfocus.
Defined.

(** ** The component at work *)

(** X30. From a coherent state on, whatever well-formed frames, render
    ticks and uploads follow one another, detection is never stopped by an
    exception and the state stays coherent: the mode shown is the mode of
    the engine, and in FOCUS mode, and only then, the focus target is an
    object of the registry. *)
Theorem session_stays_coherent
  (lookAtThenMultiply : Vec3 -> Group -> Quaternion -> Object3D -> Vec3)
  (events : list Event) (lastVideoTime : R) (s : State) :
  Coherent s ->
  Forall GoodEvent events ->
  let out := runSession lookAtThenMultiply events true lastVideoTime s in
  fst (fst out) = true /\ Coherent (snd out).
Proof.
  intros Hco Hall. revert lastVideoTime s Hco.
  induction Hall as [| e events Hgood _ IH]; intros lastVideoTime s Hco.
  - cbn. auto.
  - destruct e as [t u result | delta time | u]; cbn [runSession].
    + destruct Hgood as [Hu Hframe]. cbn [fst snd] in Hu, Hframe.
      unfold detect.
      destruct (Req_dec_T t lastVideoTime); [apply IH; exact Hco|].
      destruct (handleGestures_keeps_coherent_core u result s Hco Hu Hframe)
        as [Hnormal Hco'].
      destruct (handleGestures u result s) as [[[]|err] s'];
        cbn in Hnormal; [| discriminate].
      apply IH. exact Hco'.
    + apply IH.
      exact (rendering_keeps_coherent_core lookAtThenMultiply [(delta, time)]
               s Hco).
    + apply IH. apply addPhotoParticle_coherent. exact Hco.
Qed.

Lemma session_stays_coherent_witness :
  Coherent
    (snd (runSession keepAngles
            [Frame 0 0.5 (resultOf pinchFrame); Tick 0.25 0.25;
             Upload midPhotoDraws; Frame 1 0.5 (resultOf fistFrame)]
            true (-1)
            (generateParticles midDraws (readyState [] TREE None)))).
Proof.
  apply (session_stays_coherent keepAngles
           [Frame 0 0.5 (resultOf pinchFrame); Tick 0.25 0.25;
            Upload midPhotoDraws; Frame 1 0.5 (resultOf fistFrame)]
           (-1) (generateParticles midDraws (readyState [] TREE None))).
  - exact midPopulation_coherent.
  - repeat constructor; unfold InUnit; cbn; lra.
Defined.
